(** * Block Puzzle (3 pieces at a time): the grid engine of [Block_Puzzle.py]

    A shallow embedding of the methods of class [Game] that decide
    placement, line clearing, gravity collapse, reachability and scoring,
    followed by theorems about them.

    Python integers are [Z]; Python lists are [list], read and written
    through [py_get] and [py_set], which raise [IndexError] (here [None])
    exactly where Python does.  Methods of [Game] live in the monad [M]:
    a state transformer over the record [Game] that can raise. *)

From Stdlib Require Import ZArith List Bool Lia.
From stdpp Require Import base list.
Import ListNotations.
Open Scope Z_scope.

(** ** Python lists *)

Module Py.

(** [len(l)] *)
Definition len {A} (l : list A) : Z := Z.of_nat (length l).

(** [l[i]]: a negative index counts from the end, anything outside
    [-len(l) .. len(l)-1] raises [IndexError]. *)
Definition py_get {A} (l : list A) (i : Z) : option A :=
  if 0 <=? i then l !! Z.to_nat i
  else if 0 <=? len l + i then l !! Z.to_nat (len l + i)
  else None.

(** [l[i] = v], same index rules; the list never grows. *)
Definition py_set {A} (l : list A) (i : Z) (v : A) : option (list A) :=
  if 0 <=? i then
    if i <? len l then Some (<[Z.to_nat i := v]> l) else None
  else if 0 <=? len l + i then Some (<[Z.to_nat (len l + i) := v]> l)
  else None.

(** [range(n)]: empty when [n <= 0]. *)
Definition range (n : Z) : list Z := map Z.of_nat (seq 0 (Z.to_nat n)).

(** Truth value of an integer in a condition. *)
Definition truthy (v : Z) : bool := negb (v =? 0).

End Py.
Export Py.

(** ** Configuration constants (lines 24-43) *)

Definition GRID_COLS : Z := 10.
Definition GRID_ROWS : Z := 10.
Definition CELL : Z := 56.
Definition SCREEN_W : Z := 760.
Definition GRID_X : Z := (SCREEN_W - GRID_COLS * CELL) / 2.
Definition GRID_Y : Z := 160.
Definition SCORE_PER_BLOCK : Z := 10.
Definition ROWCOL_CLEAR_BONUS : Z := 50.

Definition PARTICLE_COLORS : list (Z * Z * Z) :=
  [(240,80,70); (70,170,250); (120,220,120); (250,200,60); (180,120,240)].

(** A piece is a list of rows of 0/1. *)
Definition Piece : Type := list (list Z).

Definition PIECES : list Piece :=
  [ [[1]];
    [[1;1]];
    [[1;1;1]];
    [[1;1;1;1]];
    [[1];[1]];
    [[1];[1];[1]];
    [[1;1];[1;1]];
    [[1;0];[1;1]];
    [[0;1];[1;1]];
    [[1;1;1];[0;1;0]];
    [[1;0];[1;0];[1;1]];
    [[0;1];[0;1];[1;1]];
    [[1;0;0];[1;1;1]];
    [[1;1;0];[0;1;1]];
    [[0;1;1];[1;1;0]];
    [[1;1;1];[1;0;0]] ].

(** ** The state of a [Game] object

    [grid] is indexed [grid[x][y]]: a list of [GRID_COLS] columns, each a
    list of [GRID_ROWS] cells; 0 is empty, a positive value a colour.
    The particle list is rendering state drawn from random floats and is
    left out. *)

Record Game : Type := mkGame {
  grid : list (list Z);
  score : Z;
  highscore : Z;
  pieces : list Piece;
  piece_colors : list Z;
  used : list bool;
  game_over : bool
}.

Definition set_grid (g : Game) (gr : list (list Z)) : Game :=
  mkGame gr (score g) (highscore g) (pieces g) (piece_colors g) (used g) (game_over g).
Definition set_score (g : Game) (s : Z) : Game :=
  mkGame (grid g) s (highscore g) (pieces g) (piece_colors g) (used g) (game_over g).
Definition set_highscore (g : Game) (s : Z) : Game :=
  mkGame (grid g) (score g) s (pieces g) (piece_colors g) (used g) (game_over g).
Definition set_used (g : Game) (u : list bool) : Game :=
  mkGame (grid g) (score g) (highscore g) (pieces g) (piece_colors g) u (game_over g).
Definition set_game_over (g : Game) (b : bool) : Game :=
  mkGame (grid g) (score g) (highscore g) (pieces g) (piece_colors g) (used g) b.

(** ** The monad of methods: state over [Game], [None] is a raised
    [IndexError] (nothing in the program catches it). *)

Definition M (A : Type) : Type := Game -> option (A * Game).

Definition ret {A} (a : A) : M A := fun g => Some (a, g).

Definition bind {A B} (m : M A) (k : A -> M B) : M B :=
  fun g => match m g with
           | Some (a, g') => k a g'
           | None => None
           end.

Declare Scope game_scope.
Delimit Scope game_scope with game.
Notation "x <- c1 ;; c2" := (bind c1 (fun x => c2))
  (at level 100, c1 at next level, right associativity) : game_scope.
Notation "c1 ;; c2" := (bind c1 (fun _ => c2))
  (at level 100, right associativity) : game_scope.
Open Scope game_scope.

(** Read a field of [self]. *)
Definition gets {A} (f : Game -> A) : M A := fun g => Some (f g, g).

(** Replace the state. *)
Definition modify (f : Game -> Game) : M unit := fun g => Some (tt, f g).

(** An indexing result: the value, or the exception. *)
Definition lift {A} (o : option A) : M A :=
  fun g => match o with Some a => Some (a, g) | None => None end.

(** *** Loops *)

(** [for a in l: if not body(a): return False] followed by [return True]
    (also the [full = True ... full = False; break] scan). *)
Fixpoint for_all {A} (l : list A) (body : A -> M bool) : M bool :=
  match l with
  | [] => ret true
  | a :: l' => b <- body a ;; if b then for_all l' body else ret false
  end.

(** [for a in l: if body(a): return True] followed by [return False]. *)
Fixpoint for_any {A} (l : list A) (body : A -> M bool) : M bool :=
  match l with
  | [] => ret false
  | a :: l' => b <- body a ;; if b then ret true else for_any l' body
  end.

(** [for a in l: body(a)] *)
Fixpoint for_each {A} (l : list A) (body : A -> M unit) : M unit :=
  match l with
  | [] => ret tt
  | a :: l' => body a ;; for_each l' body
  end.

(** [for a in l: acc = body(a, acc)] *)
Fixpoint for_fold {A S} (l : list A) (acc : S) (body : A -> S -> M S) : M S :=
  match l with
  | [] => ret acc
  | a :: l' => acc' <- body a acc ;; for_fold l' acc' body
  end.

(** [out = []; for a in l: if test(a): out.append(a)] *)
Fixpoint select {A} (l : list A) (test : A -> M bool) : M (list A) :=
  match l with
  | [] => ret []
  | a :: l' =>
      b <- test a ;;
      rest <- select l' test ;;
      ret (if b then a :: rest else rest)
  end.

(** [[item(a) for a in l if test(a)]] *)
Fixpoint comprehension {A B} (l : list A) (test : A -> M bool) (item : A -> M B)
  : M (list B) :=
  match l with
  | [] => ret []
  | a :: l' =>
      b <- test a ;;
      if b then
        v <- item a ;;
        rest <- comprehension l' test item ;;
        ret (v :: rest)
      else comprehension l' test item
  end.

(** *** Accessors of [self] *)

(** [self.grid[x][y]] *)
Definition grid_get (x y : Z) : M Z :=
  gr <- gets grid ;;
  col <- lift (py_get gr x) ;;
  lift (py_get col y).

(** [self.grid[x][y] = v]: the column object [self.grid[x]] is updated in
    place; columns are distinct objects (line 133), so no other column
    changes. *)
Definition grid_set (x y v : Z) : M unit :=
  gr <- gets grid ;;
  col <- lift (py_get gr x) ;;
  col' <- lift (py_set col y v) ;;
  gr' <- lift (py_set gr x col') ;;
  modify (fun g => set_grid g gr').

(** [self.used[i]], [self.pieces[i]], [self.piece_colors[i]] *)
Definition used_get (i : Z) : M bool := u <- gets used ;; lift (py_get u i).
Definition pieces_get (i : Z) : M Piece := p <- gets pieces ;; lift (py_get p i).
Definition piece_colors_get (i : Z) : M Z := c <- gets piece_colors ;; lift (py_get c i).

(** [self.used[i] = b] *)
Definition used_set (i : Z) (b : bool) : M unit :=
  u <- gets used ;;
  u' <- lift (py_set u i b) ;;
  modify (fun g => set_used g u').

(** [self.score += d] *)
Definition score_add (d : Z) : M unit := modify (fun g => set_score g (score g + d)).

(** ** Methods of [Game] *)

(** [spawn_new_triplet] (lines 151-154).  [new_pieces] and [new_colors]
    stand for the three results of [random_piece()] and of
    [random.randrange(len(PARTICLE_COLORS))]. *)
Definition spawn_new_triplet (new_pieces : list Piece) (new_colors : list Z) : M unit :=
  modify (fun g =>
    mkGame (grid g) (score g) (highscore g) new_pieces new_colors
           [false; false; false] (game_over g)).

(** [can_place_piece] (lines 156-167) *)
Definition can_place_piece (piece : Piece) (drop_x drop_y : Z) : M bool :=
  let h := len piece in
  row0 <- lift (py_get piece 0) ;;
  let w := len row0 in
  if (drop_x <? 0) || (drop_y <? 0) || (drop_x + w >? GRID_COLS)
     || (drop_y + h >? GRID_ROWS)
  then ret false
  else
    for_all (range w) (fun px =>
      for_all (range h) (fun py =>
        prow <- lift (py_get piece py) ;;
        c <- lift (py_get prow px) ;;
        if truthy c then
          v <- grid_get (drop_x + px) (drop_y + py) ;;
          ret (v =? 0)
        else ret true)).

(** [any_valid_for_index] (lines 169-179) *)
Definition any_valid_for_index (index : Z) : M bool :=
  u <- used_get index ;;
  if u then ret false
  else
    piece <- pieces_get index ;;
    let h := len piece in
    row0 <- lift (py_get piece 0) ;;
    let w := len row0 in
    for_any (range (GRID_COLS - w + 1)) (fun gx =>
      for_any (range (GRID_ROWS - h + 1)) (fun gy =>
        can_place_piece piece gx gy)).

(** [any_move_exists] (lines 181-186) *)
Definition any_move_exists : M bool :=
  for_any (range 3) any_valid_for_index.

(** The row scan of [clear_full_lines] (lines 231-234): is row [y] full? *)
Definition row_scan (y : Z) : M bool :=
  for_all (range GRID_COLS) (fun x => v <- grid_get x y ;; ret (negb (v =? 0))).

(** The column scan (lines 244-247): is column [x] full? *)
Definition col_scan (x : Z) : M bool :=
  for_all (range GRID_ROWS) (fun y => v <- grid_get x y ;; ret (negb (v =? 0))).

(** Lines 237-240: zero the listed rows, counting them. *)
Definition clear_rows (rows_to_clear : list Z) (cleared : Z) : M Z :=
  for_fold rows_to_clear cleared (fun y cleared =>
    for_each (range GRID_COLS) (fun x => grid_set x y 0) ;;
    ret (cleared + 1)).

(** Lines 250-253: zero the listed columns, counting them. *)
Definition clear_cols (cols_to_clear : list Z) (cleared : Z) : M Z :=
  for_fold cols_to_clear cleared (fun x cleared =>
    for_each (range GRID_ROWS) (fun y => grid_set x y 0) ;;
    ret (cleared + 1)).

(** Lines 257-260: collapse of one column. *)
Definition collapse_column (x : Z) : M unit :=
  col <- comprehension (range GRID_ROWS)
           (fun y => v <- grid_get x y ;; ret (negb (v =? 0)))
           (fun y => grid_get x y) ;;
  let newcol := replicate (Z.to_nat (GRID_ROWS - len col)) 0 ++ col in
  for_each (range GRID_ROWS) (fun y =>
    v <- lift (py_get newcol y) ;;
    grid_set x y v).

(** Lines 256-260: gravity collapse of every column. *)
Definition gravity_collapse : M unit :=
  for_each (range GRID_COLS) collapse_column.

(** [clear_full_lines] (lines 225-261) *)
Definition clear_full_lines : M Z :=
  let cleared := 0 in
  rows_to_clear <- select (range GRID_ROWS) row_scan ;;
  cleared <- clear_rows rows_to_clear cleared ;;
  cols_to_clear <- select (range GRID_COLS) col_scan ;;
  cleared <- clear_cols cols_to_clear cleared ;;
  (if cleared >? 0 then gravity_collapse else ret tt) ;;
  ret cleared.

(** Lines 196-200 of [place_piece]: write the piece, count its blocks. *)
Definition write_piece (piece : Piece) (gx gy color_id : Z) : M Z :=
  for_fold (range (len piece)) 0 (fun py placed_blocks =>
    row0 <- lift (py_get piece 0) ;;
    for_fold (range (len row0)) placed_blocks (fun px placed_blocks =>
      prow <- lift (py_get piece py) ;;
      c <- lift (py_get prow px) ;;
      if truthy c then
        grid_set (gx + px) (gy + py) color_id ;;
        ret (placed_blocks + 1)
      else ret placed_blocks)).

(** [place_piece] (lines 188-223).  The particles appended at lines
    203-207 are not stored; the colour lookup they perform is kept because
    it can raise.  Sounds and the high-score file are outside the model. *)
Definition place_piece (new_pieces : list Piece) (new_colors : list Z)
    (index gx gy : Z) : M bool :=
  if (index <? 0) || (index >? 2) then ret false
  else
    u <- used_get index ;;
    if u then ret false
    else
      piece <- pieces_get index ;;
      ok <- can_place_piece piece gx gy ;;
      if negb ok then ret false
      else
        c <- piece_colors_get index ;;
        let color_id := c + 1 in
        placed_blocks <- write_piece piece gx gy color_id ;;
        used_set index true ;;
        row0 <- lift (py_get piece 0) ;;
        c' <- piece_colors_get index ;;
        lift (py_get PARTICLE_COLORS c') ;;
        score_add (placed_blocks * SCORE_PER_BLOCK) ;;
        clears <- clear_full_lines ;;
        (if clears >? 0 then score_add (ROWCOL_CLEAR_BONUS * clears) else ret tt) ;;
        all_used <- gets (fun g => forallb (fun b : bool => b) (used g)) ;;
        (if all_used then spawn_new_triplet new_pieces new_colors else ret tt) ;;
        s <- gets score ;;
        hs <- gets highscore ;;
        (if s >? hs then modify (fun g => set_highscore g (score g)) else ret tt) ;;
        ret true.

(** [screen_to_grid] (lines 361-366) *)
Definition screen_to_grid (mx my : Z) : option (Z * Z) :=
  let gx := (mx - GRID_X) / CELL in
  let gy := (my - GRID_Y) / CELL in
  if (0 <=? gx) && (gx <? GRID_COLS) && (0 <=? gy) && (gy <? GRID_ROWS)
  then Some (gx, gy) else None.

(** Lines 471-475 of [main]: place the first usable piece that fits. *)
Fixpoint place_first_fit (new_pieces : list Piece) (new_colors : list Z)
    (gx gy : Z) (l : list Z) : M bool :=
  match l with
  | [] => ret false
  | i :: l' =>
      u <- used_get i ;;
      if u then place_first_fit new_pieces new_colors gx gy l'
      else
        p <- pieces_get i ;;
        ok <- can_place_piece p gx gy ;;
        if ok then place_piece new_pieces new_colors i gx gy
        else place_first_fit new_pieces new_colors gx gy l'
  end.

(** The [MOUSEBUTTONDOWN] branch of [main] in state "play" (lines
    463-478): the only place a piece is ever placed from. *)
Definition mouse_button_down_play (new_pieces : list Piece) (new_colors : list Z)
    (button : Z) (pos : Z * Z) : M unit :=
  over <- gets game_over ;;
  if (button =? 1) && negb over then
    match screen_to_grid (fst pos) (snd pos) with
    | Some (gx, gy) =>
        place_first_fit new_pieces new_colors gx gy (range 3) ;;
        b <- any_move_exists ;;
        if negb b then modify (fun g => set_game_over g true) else ret tt
    | None => ret tt
    end
  else ret tt.

(** ** The rest of the round: new game, reset, update, ghost, menu *)

(** [Game.__init__] (lines 132-140).  [hs] is what [load_highscore()]
    returned; the draws are as for [spawn_new_triplet]. *)
Definition new_game (hs : Z) (new_pieces : list Piece) (new_colors : list Z) : Game :=
  mkGame (map (fun _ => replicate (Z.to_nat GRID_ROWS) 0) (range GRID_COLS))
         0 hs new_pieces new_colors [false; false; false] false.

(** [reset] (lines 142-149); the high score is not touched. *)
Definition reset (new_pieces : list Piece) (new_colors : list Z) : M unit :=
  modify (fun g =>
    mkGame (map (fun _ => replicate (Z.to_nat GRID_ROWS) 0) (range GRID_COLS))
           0 (highscore g) new_pieces new_colors [false; false; false] false).

(** The update step of [main] in state "play" (lines 481-491), without
    the particles. *)
Definition update_play : M unit :=
  over <- gets game_over ;;
  (if negb over then
     b <- any_move_exists ;;
     if negb b then modify (fun g => set_game_over g true) else ret tt
   else ret tt) ;;
  s <- gets score ;;
  hs <- gets highscore ;;
  if s >? hs then modify (fun g => set_highscore g (score g)) else ret tt.

(** The scan of [draw_ghost_piece] (lines 338-359) for the grid cell
    [(gx, gy)] under the mouse: the value is the index of the piece whose
    ghost is drawn, [None] when none is.  The drawing itself is left out;
    the colour lookup it starts with is kept. *)
Fixpoint ghost_scan (gx gy : Z) (l : list Z) : M (option Z) :=
  match l with
  | [] => ret None
  | idx :: l' =>
      u <- used_get idx ;;
      if u then ghost_scan gx gy l'
      else
        piece <- pieces_get idx ;;
        let h := len piece in
        row0 <- lift (py_get piece 0) ;;
        let w := len row0 in
        if (gx + w <=? GRID_COLS) && (gy + h <=? GRID_ROWS) then
          ok <- can_place_piece piece gx gy ;;
          if ok then
            c <- piece_colors_get idx ;;
            lift (py_get PARTICLE_COLORS (c mod len PARTICLE_COLORS)) ;;
            ret (Some idx)
          else ghost_scan gx gy l'
        else ghost_scan gx gy l'
  end.

(** [draw_ghost_piece] (lines 329-359) *)
Definition draw_ghost_piece (mouse_pos : Z * Z) : M (option Z) :=
  match screen_to_grid (fst mouse_pos) (snd mouse_pos) with
  | None => ret None
  | Some (gx, gy) => ghost_scan gx gy (range 3)
  end.

(** The menu keys of [main] (lines 423-426): the selected entry after Up
    and after Down. *)
Definition menu_up (selected_menu : Z) : Z := (selected_menu - 1) mod 3.
Definition menu_down (selected_menu : Z) : Z := (selected_menu + 1) mod 3.

(** * Specification vocabulary

    What the theorems speak about: the shape of a board, its cells, full
    lines, the collapsed form of a column, fitting pieces, and the few
    concrete boards the examples run on. *)

(** ** Boards *)

(** The grid [Game.__init__] and [reset] build and every method keeps:
    [GRID_COLS] columns of [GRID_ROWS] cells. *)
Definition wf_grid (gr : list (list Z)) : Prop :=
  len gr = GRID_COLS /\ Forall (fun col => len col = GRID_ROWS) gr.

(** Column [x] of the grid, the list [grid[x]]. *)
Definition column (gr : list (list Z)) (x : Z) : list Z :=
  default [] (py_get gr x).

(** The cell [grid[x][y]]. *)
Definition cell (gr : list (list Z)) (x y : Z) : Z :=
  default 0 (py_get (column gr x) y).

(** [(x, y)] is a position of the board. *)
Definition in_grid (x y : Z) : Prop :=
  0 <= x < GRID_COLS /\ 0 <= y < GRID_ROWS.

(** The grid after [grid[x][y] = v]. *)
Definition grid_put (gr : list (list Z)) (x y v : Z) : list (list Z) :=
  <[Z.to_nat x := <[Z.to_nat y := v]> (column gr x)]> gr.

(** [g'] differs from [g] in its grid at most. *)
Definition grid_only (g g' : Game) : Prop := g' = set_grid g (grid g').

(** ** Full lines and the collapse *)

(** What the row scan answers for row [y]. *)
Definition row_is_full (gr : list (list Z)) (y : Z) : bool :=
  forallb (fun x => negb (cell gr x y =? 0)) (range GRID_COLS).

(** What the column scan answers for column [x]. *)
Definition col_is_full (gr : list (list Z)) (x : Z) : bool :=
  forallb (fun y => negb (cell gr x y =? 0)) (range GRID_ROWS).

(** The nonzero cells of a column, in order. *)
Definition nonzeros (c : list Z) : list Z := List.filter truthy c.

(** A column after the collapse: its nonzero cells at the high end. *)
Definition collapsed (c : list Z) : list Z :=
  replicate (Z.to_nat (GRID_ROWS - len (nonzeros c))) 0 ++ nonzeros c.

(** [rows_to_clear] and [cols_to_clear] for a grid. *)
Definition full_rows (gr : list (list Z)) : list Z :=
  List.filter (row_is_full gr) (range GRID_ROWS).

Definition full_cols (gr : list (list Z)) : list Z :=
  List.filter (col_is_full gr) (range GRID_COLS).

(** The three grids [clear_full_lines] goes through from [g]: [g1] after
    the rows are zeroed, [g2] after the columns are zeroed, [g3] after the
    collapse; [n] is the value returned. *)
Definition clear_trace (g g1 g2 g3 : Game) (n : Z) : Prop :=
  (grid_only g g1 /\ wf_grid (grid g1) /\
   forall x y, in_grid x y ->
     cell (grid g1) x y = if row_is_full (grid g) y then 0 else cell (grid g) x y) /\
  (grid_only g1 g2 /\ wf_grid (grid g2) /\
   forall x y, in_grid x y ->
     cell (grid g2) x y = if col_is_full (grid g1) x then 0 else cell (grid g1) x y) /\
  (grid_only g2 g3 /\ wf_grid (grid g3) /\
   if n >? 0
   then forall x, 0 <= x < GRID_COLS ->
          column (grid g3) x = collapsed (column (grid g2) x)
   else g3 = g2) /\
  n = len (full_rows (grid g)) + len (full_cols (grid g1)).

(** Row [y] is full: every cell of it is nonzero. *)
Definition row_full (gr : list (list Z)) (y : Z) : Prop :=
  forall x, 0 <= x < GRID_COLS -> cell gr x y <> 0.

(** Column [x] is full: every cell of it is nonzero. *)
Definition col_full (gr : list (list Z)) (x : Z) : Prop :=
  forall y, 0 <= y < GRID_ROWS -> cell gr x y <> 0.

(** Number of nonzero cells of the whole grid. *)
Definition total_nonzero (gr : list (list Z)) : Z := len (nonzeros (concat gr)).

(** ** Concrete boards *)

(** A fresh round on grid [gr]: score 0, three unused pieces. *)
Definition board (gr : list (list Z)) : Game :=
  mkGame gr 0 0 [[[1]]; [[1;1];[1;1]]; [[1;1;1]]] [0; 1; 2] [false; false; false] false.

(** Row 0 and column 0 full, everything else empty. *)
Definition cross_grid : list (list Z) :=
  replicate 10 1 :: replicate 9 (1 :: replicate 9 0).

(** [cross_grid] without the corner cell (0,0). *)
Definition cross_open_grid : list (list Z) :=
  (0 :: replicate 9 1) :: replicate 9 (1 :: replicate 9 0).

(** What [clear_full_lines] leaves of [cross_grid]: column 0 keeps nine
    cells. *)
Definition cross_cleared_grid : list (list Z) :=
  (0 :: replicate 9 1) :: replicate 9 (replicate 10 0).

(** Bottom row 9 full; row 8 full except in column 0, which holds a cell
    at row 7 instead. *)
Definition stacked_grid : list (list Z) :=
  (replicate 7 0 ++ [1; 0; 1]) :: replicate 9 (replicate 8 0 ++ [1; 1]).

(** ** Pieces and placement *)

(** [h] and [w] of [can_place_piece]. *)
Definition height (p : Piece) : Z := len p.

Definition width (p : Piece) : Z :=
  match py_get p 0 with Some row0 => len row0 | None => 0 end.

(** [piece[py][px]] *)
Definition piece_cell (p : Piece) (px py : Z) : Z :=
  default 0 (py_get (default [] (py_get p py)) px).

(** A piece is a non-empty rectangle. *)
Definition wf_piece (p : Piece) : Prop :=
  0 < height p /\ Forall (fun r => len r = width p) p.

(** Cell [(px, py)] of the piece is occupied. *)
Definition occupied (p : Piece) (px py : Z) : Prop :=
  0 <= px < width p /\ 0 <= py < height p /\ piece_cell p px py <> 0.

(** The bounding box of [p] anchored at [(x, y)] lies in the grid. *)
Definition box_in_grid (p : Piece) (x y : Z) : Prop :=
  0 <= x /\ 0 <= y /\ x + width p <= GRID_COLS /\ y + height p <= GRID_ROWS.

(** The bounds test of line 160. *)
Definition out_of_grid (p : Piece) (x y : Z) : bool :=
  (x <? 0) || (y <? 0) || (x + width p >? GRID_COLS) || (y + height p >? GRID_ROWS).

(** The scan of lines 162-166. *)
Definition cells_free (gr : list (list Z)) (p : Piece) (x y : Z) : bool :=
  forallb (fun px =>
    forallb (fun py =>
      if truthy (piece_cell p px py) then cell gr (x + px) (y + py) =? 0 else true)
      (range (height p)))
    (range (width p)).

(** What [can_place_piece] answers. *)
Definition fits (gr : list (list Z)) (p : Piece) (x y : Z) : bool :=
  negb (out_of_grid p x y) && cells_free gr p x y.

(** ** Game states *)

(** The shape every [Game] object keeps: a 10 x 10 grid, three pieces
    that are rectangles, three colours that index [PARTICLE_COLORS], three
    flags. *)
Definition wf_game (g : Game) : Prop :=
  wf_grid (grid g) /\
  len (used g) = 3 /\ len (pieces g) = 3 /\ len (piece_colors g) = 3 /\
  Forall wf_piece (pieces g) /\
  Forall (fun c => 0 <= c < len PARTICLE_COLORS) (piece_colors g).

(** Some anchor of the search of [any_valid_for_index] takes the piece. *)
Definition placeable (gr : list (list Z)) (p : Piece) : bool :=
  existsb (fun gx =>
    existsb (fun gy => fits gr p gx gy) (range (GRID_ROWS - height p + 1)))
    (range (GRID_COLS - width p + 1)).

(** Piece [i] is unused and placeable. *)
Definition movable (g : Game) (i : Z) : bool :=
  match py_get (used g) i, py_get (pieces g) i with
  | Some false, Some p => placeable (grid g) p
  | _, _ => false
  end.

(** Number of occupied cells of a piece. *)
Definition occupied_cells (p : Piece) : Z := len (nonzeros (concat p)).

(** The state [clear_full_lines] is called on inside [place_piece]: the
    piece written into [gw], the flag set, the block score added. *)
Definition placed_state (g gw : Game) (i : Z) (p : Piece) : Game :=
  set_score (set_used gw (<[Z.to_nat i := true]> (used g)))
            (score g + occupied_cells p * SCORE_PER_BLOCK).

(** ** Concrete states *)

(** Checkerboard: no two empty cells are neighbours. *)
Definition checker_grid : list (list Z) :=
  concat (replicate 5 [ [1;0;1;0;1;0;1;0;1;0]; [0;1;0;1;0;1;0;1;0;1] ]).

(** A finished round: pieces of two cells and more on the checkerboard. *)
Definition stuck_game : Game :=
  mkGame checker_grid 120 120 [[[1;1]]; [[1];[1]]; [[1;1];[1;1]]] [0; 1; 2]
         [false; false; false] true.

(** An open round: the cross without its corner, a single block first. *)
Definition open_game : Game := board cross_open_grid.

(** ** Vocabulary of the further properties *)

(** Board cell [(x, y)] lies under an occupied cell of [p] anchored at
    [(gx, gy)]. *)
Definition covers_row (p : Piece) (gx x py : Z) : bool :=
  existsb (fun px => (gx + px =? x) && truthy (piece_cell p px py)) (range (width p)).

Definition covers (p : Piece) (gx gy x y : Z) : bool :=
  existsb (fun py => (gy + py =? y) && covers_row p gx x py) (range (height p)).

(** Piece [j] is unused and fits at [(gx, gy)]. *)
Definition qualifies (g : Game) (gx gy j : Z) : Prop :=
  exists q, py_get (used g) j = Some false /\ py_get (pieces g) j = Some q /\
            fits (grid g) q gx gy = true.

(** What the sampler can hand to [spawn_new_triplet] and [reset]: three
    pieces of the catalogue, three indices into [PARTICLE_COLORS]. *)
Definition draws_ok (new_pieces : list Piece) (new_colors : list Z) : Prop :=
  len new_pieces = 3 /\ Forall (fun p => In p PIECES) new_pieces /\
  len new_colors = 3 /\ Forall (fun c => 0 <= c < len PARTICLE_COLORS) new_colors.

(** Lines 213-222 of [place_piece] on the state [gc] that
    [clear_full_lines] returned with the count [clears]. *)
Definition settle_round (new_pieces : list Piece) (new_colors : list Z)
    (clears : Z) (gc : Game) : Game :=
  let g3 := if clears >? 0 then set_score gc (score gc + ROWCOL_CLEAR_BONUS * clears) else gc in
  let g4 := if forallb (fun b : bool => b) (used g3)
            then mkGame (grid g3) (score g3) (highscore g3) new_pieces new_colors
                        [false; false; false] (game_over g3)
            else g3 in
  if score g4 >? highscore g4 then set_highscore g4 (score g4) else g4.

(** The first index of [l] whose piece is unused and fits. *)
Fixpoint first_fit (g : Game) (gx gy : Z) (l : list Z) : option Z :=
  match l with
  | [] => None
  | i :: l' =>
      match py_get (used g) i, py_get (pieces g) i with
      | Some false, Some p =>
          if fits (grid g) p gx gy then Some i else first_fit g gx gy l'
      | _, _ => first_fit g gx gy l'
      end
  end.

(** The round invariant: a well-formed state whose [game_over] flag, when
    set, tells the truth. *)
Definition round_inv (g : Game) : Prop :=
  wf_game g /\ (game_over g = true -> any_move_exists g = Some (false, g)).

(** A draw the sampler can make: three catalogue pieces, three colours. *)
Definition sample_pieces : list Piece := [[[1;1;1];[0;1;0]]; [[1]]; [[1;1];[1;1]]].
Definition sample_colors : list Z := [4; 0; 2].

(** * Lemmas and theorems *)

(** ** Python lists *)

Section PythonLists.
Context {A : Type}.
Implicit Types (l : list A) (i : Z).

Lemma py_get_nat l i : 0 <= i -> py_get l i = l !! Z.to_nat i.
Proof.
  intros Hi. unfold py_get.
  destruct (Z.leb_spec 0 i); [reflexivity | lia].
Qed.

Lemma py_get_of_nat l (n : nat) : py_get l (Z.of_nat n) = l !! n.
Proof. rewrite py_get_nat by lia. now rewrite Nat2Z.id. Qed.

Lemma py_get_is_Some l i : 0 <= i < len l -> is_Some (py_get l i).
Proof.
  intros Hi. rewrite py_get_nat by lia.
  apply lookup_lt_is_Some. unfold len in Hi. lia.
Qed.

Lemma py_get_Some_len l i a : 0 <= i -> py_get l i = Some a -> i < len l.
Proof.
  intros Hi. rewrite py_get_nat by lia. intros H.
  apply lookup_lt_Some in H. unfold len. lia.
Qed.

Lemma py_set_nat l i v :
  0 <= i < len l -> py_set l i v = Some (<[Z.to_nat i := v]> l).
Proof.
  intros Hi. unfold py_set.
  destruct (Z.leb_spec 0 i); [| lia].
  destruct (Z.ltb_spec i (len l)); [reflexivity | lia].
Qed.

Lemma len_insert l (n : nat) v : len (<[n := v]> l) = len l.
Proof. unfold len. now rewrite length_insert. Qed.

Lemma py_get_insert l i j v :
  0 <= i < len l -> 0 <= j ->
  py_get (<[Z.to_nat i := v]> l) j = if i =? j then Some v else py_get l j.
Proof.
  intros Hi Hj. rewrite !py_get_nat by lia.
  destruct (Z.eqb_spec i j) as [-> | Hne].
  - apply list_lookup_insert_eq. unfold len in Hi. lia.
  - apply list_lookup_insert_ne. lia.
Qed.

End PythonLists.

Lemma in_range i n : In i (range n) <-> 0 <= i < n.
Proof.
  unfold range. rewrite in_map_iff. split.
  - intros (k & <- & Hk). apply in_seq in Hk. lia.
  - intros Hi. exists (Z.to_nat i). split; [lia |]. apply in_seq. lia.
Qed.

(** ** Rules for the loops *)

Section LoopRules.
Context {A : Type}.

(** A loop whose body only reads computes [forallb]. *)
Lemma for_all_reads (l : list A) body (p : A -> bool) g :
  (forall a, In a l -> body a g = Some (p a, g)) ->
  for_all l body g = Some (forallb p l, g).
Proof.
  induction l as [| a l IH]; intros Hb; [reflexivity |].
  cbn [for_all forallb]. unfold bind. rewrite (Hb a) by (now left).
  destruct (p a); [| reflexivity].
  apply IH. intros b Hin. apply Hb. now right.
Qed.

Lemma for_any_reads (l : list A) body (p : A -> bool) g :
  (forall a, In a l -> body a g = Some (p a, g)) ->
  for_any l body g = Some (existsb p l, g).
Proof.
  induction l as [| a l IH]; intros Hb; [reflexivity |].
  cbn [for_any existsb]. unfold bind. rewrite (Hb a) by (now left).
  destruct (p a); [reflexivity |].
  apply IH. intros b Hin. apply Hb. now right.
Qed.

Lemma select_reads (l : list A) test (p : A -> bool) g :
  (forall a, In a l -> test a g = Some (p a, g)) ->
  select l test g = Some (List.filter p l, g).
Proof.
  induction l as [| a l IH]; intros Hb; [reflexivity |].
  cbn [select List.filter]. unfold bind. rewrite (Hb a) by (now left).
  rewrite IH by (intros b Hin; apply Hb; now right).
  unfold ret. now destruct (p a).
Qed.

Lemma comprehension_reads {B} (l : list A) test item (p : A -> bool) (f : A -> B) g :
  (forall a, In a l -> test a g = Some (p a, g)) ->
  (forall a, In a l -> item a g = Some (f a, g)) ->
  comprehension l test item g = Some (map f (List.filter p l), g).
Proof.
  induction l as [| a l IH]; intros Ht Hi; [reflexivity |].
  cbn [comprehension List.filter]. unfold bind. rewrite (Ht a) by (now left).
  specialize (IH (fun b Hin => Ht b (or_intror Hin)) (fun b Hin => Hi b (or_intror Hin))).
  destruct (p a); [| exact IH].
  rewrite (Hi a) by (now left). rewrite IH. reflexivity.
Qed.

(** Invariant rule: [I done acc g] holds after the iterations [done]. *)
Lemma for_fold_rule {S} (I : list A -> S -> Game -> Prop) body :
  forall (l pre : list A) (acc : S) (g : Game),
  I pre acc g ->
  (forall done a acc1 g1, In a l -> I done acc1 g1 ->
     exists acc2 g2, body a acc1 g1 = Some (acc2, g2) /\ I (done ++ [a]) acc2 g2) ->
  exists acc' g', for_fold l acc body g = Some (acc', g') /\ I (pre ++ l) acc' g'.
Proof.
  induction l as [| a l IH]; intros pre acc g HI Hstep.
  - exists acc, g. now rewrite app_nil_r.
  - destruct (Hstep pre a acc g (or_introl eq_refl) HI) as (acc2 & g2 & Hb & HI2).
    destruct (IH (pre ++ [a]) acc2 g2 HI2) as (acc' & g' & Hl & HI').
    { intros done b acc1 g1 Hin. apply Hstep. now right. }
    exists acc', g'. cbn [for_fold]. unfold bind. rewrite Hb.
    split; [exact Hl |]. now rewrite <- app_assoc in HI'.
Qed.

Lemma for_each_rule (I : list A -> Game -> Prop) body :
  forall (l pre : list A) (g : Game),
  I pre g ->
  (forall done a g1, In a l -> I done g1 ->
     exists g2, body a g1 = Some (tt, g2) /\ I (done ++ [a]) g2) ->
  exists g', for_each l body g = Some (tt, g') /\ I (pre ++ l) g'.
Proof.
  induction l as [| a l IH]; intros pre g HI Hstep.
  - exists g. now rewrite app_nil_r.
  - destruct (Hstep pre a g (or_introl eq_refl) HI) as (g2 & Hb & HI2).
    destruct (IH (pre ++ [a]) g2 HI2) as (g' & Hl & HI').
    { intros done b g1 Hin. apply Hstep. now right. }
    exists g'. cbn [for_each]. unfold bind. rewrite Hb.
    split; [exact Hl |]. now rewrite <- app_assoc in HI'.
Qed.

End LoopRules.

(** ** The grid accessors on a well-formed grid *)

Lemma GRID_COLS_pos : 0 < GRID_COLS.
Proof. reflexivity. Qed.

Lemma GRID_ROWS_pos : 0 < GRID_ROWS.
Proof. reflexivity. Qed.

Lemma wf_column gr x :
  wf_grid gr -> 0 <= x < GRID_COLS ->
  py_get gr x = Some (column gr x) /\ len (column gr x) = GRID_ROWS.
Proof.
  intros [Hl Hc] Hx. unfold column.
  destruct (py_get_is_Some gr x) as [col Hcol]; [lia |].
  rewrite Hcol. split; [reflexivity |]. cbn.
  rewrite py_get_nat in Hcol by lia.
  rewrite Forall_lookup in Hc. exact (Hc _ _ Hcol).
Qed.

Lemma wf_cell gr x y :
  wf_grid gr -> in_grid x y ->
  py_get (column gr x) y = Some (cell gr x y).
Proof.
  intros Hwf [Hx Hy]. unfold cell.
  destruct (wf_column gr x Hwf Hx) as [_ Hl].
  destruct (py_get_is_Some (column gr x) y) as [v Hv]; [lia |].
  now rewrite Hv.
Qed.

Lemma grid_get_ok g x y :
  wf_grid (grid g) -> in_grid x y ->
  grid_get x y g = Some (cell (grid g) x y, g).
Proof.
  intros Hwf Hxy. unfold grid_get, bind, gets, lift.
  destruct (wf_column _ x Hwf (proj1 Hxy)) as [-> _].
  now rewrite (wf_cell _ _ _ Hwf Hxy).
Qed.

Lemma grid_set_ok g x y v :
  wf_grid (grid g) -> in_grid x y ->
  grid_set x y v g = Some (tt, set_grid g (grid_put (grid g) x y v)).
Proof.
  intros Hwf [Hx Hy]. unfold grid_set, bind, gets, lift, modify.
  destruct (wf_column _ x Hwf Hx) as [-> Hl].
  rewrite py_set_nat by lia.
  rewrite py_set_nat by (destruct Hwf; lia).
  reflexivity.
Qed.

Lemma grid_put_wf gr x y v : wf_grid gr -> in_grid x y -> wf_grid (grid_put gr x y v).
Proof.
  intros Hwf [Hx Hy]. destruct (wf_column _ x Hwf Hx) as [_ Hl].
  destruct Hwf as [Hlen Hc]. unfold grid_put. split.
  - now rewrite len_insert.
  - apply Forall_insert; [exact Hc |]. now rewrite len_insert.
Qed.

Lemma grid_put_column gr x y v x' :
  wf_grid gr -> in_grid x y -> 0 <= x' < GRID_COLS ->
  column (grid_put gr x y v) x' =
    if x =? x' then <[Z.to_nat y := v]> (column gr x) else column gr x'.
Proof.
  intros Hwf [Hx Hy] Hx'. unfold column at 1. unfold grid_put.
  rewrite py_get_insert by (destruct Hwf; lia).
  destruct (x =? x'); reflexivity.
Qed.

Lemma grid_put_cell gr x y v x' y' :
  wf_grid gr -> in_grid x y -> in_grid x' y' ->
  cell (grid_put gr x y v) x' y' =
    if (x =? x') && (y =? y') then v else cell gr x' y'.
Proof.
  intros Hwf Hxy [Hx' Hy']. unfold cell at 1.
  rewrite grid_put_column by assumption.
  destruct (Z.eqb_spec x x') as [<- | Hne]; [| reflexivity].
  destruct Hxy as [Hx Hy]. destruct (wf_column _ x Hwf Hx) as [_ Hl].
  rewrite py_get_insert by lia.
  destruct (y =? y'); reflexivity.
Qed.

Lemma grid_only_refl g : grid_only g g.
Proof. now destruct g. Qed.

Lemma grid_only_set g gr : grid_only g (set_grid g gr).
Proof. reflexivity. Qed.

Lemma grid_only_trans g1 g2 g3 : grid_only g1 g2 -> grid_only g2 g3 -> grid_only g1 g3.
Proof. unfold grid_only. intros H12 H23. rewrite H23, H12. reflexivity. Qed.

Lemma existsb_snoc {A} (p : A -> bool) l a : existsb p (l ++ [a]) = existsb p l || p a.
Proof. rewrite existsb_app. cbn. now rewrite orb_false_r. Qed.

Lemma existsb_eqb_range n x : 0 <= x < n -> existsb (Z.eqb x) (range n) = true.
Proof.
  intros Hx. apply existsb_exists. exists x. split; [now apply in_range | apply Z.eqb_refl].
Qed.

(** A loop of cell writes at positions [pos a] with values that depend on
    the position only. *)
Lemma for_each_grid_set {A} (pos : A -> Z * Z) (val : Z -> Z -> Z) body (l : list A) g :
  wf_grid (grid g) ->
  (forall a, In a l -> in_grid (fst (pos a)) (snd (pos a))) ->
  (forall a g1, In a l -> wf_grid (grid g1) ->
     body a g1 = grid_set (fst (pos a)) (snd (pos a)) (val (fst (pos a)) (snd (pos a))) g1) ->
  exists g', for_each l body g = Some (tt, g') /\ grid_only g g' /\ wf_grid (grid g') /\
    forall x y, in_grid x y ->
      cell (grid g') x y =
        if existsb (fun a => (fst (pos a) =? x) && (snd (pos a) =? y)) l
        then val x y else cell (grid g) x y.
Proof.
  intros Hwf Hpos Hbody.
  destruct (for_each_rule
    (fun done g1 => grid_only g g1 /\ wf_grid (grid g1) /\
       forall x y, in_grid x y ->
         cell (grid g1) x y =
           if existsb (fun a => (fst (pos a) =? x) && (snd (pos a) =? y)) done
           then val x y else cell (grid g) x y)
    body l [] g) as (g' & Hrun & HI).
  - split; [apply grid_only_refl |]. split; [exact Hwf |]. reflexivity.
  - intros done a g1 Hin (Hfr & Hwf1 & Hcells).
    exists (set_grid g1 (grid_put (grid g1) (fst (pos a)) (snd (pos a))
                           (val (fst (pos a)) (snd (pos a))))).
    rewrite Hbody by assumption.
    split; [apply grid_set_ok; auto |].
    split; [eapply grid_only_trans; [exact Hfr | apply grid_only_set] |].
    split; [apply grid_put_wf; auto |].
    intros x y Hxy. cbn [grid set_grid].
    rewrite grid_put_cell by auto. rewrite existsb_snoc, Hcells by assumption.
    destruct (Z.eqb_spec (fst (pos a)) x) as [<- |];
      destruct (Z.eqb_spec (snd (pos a)) y) as [<- |]; cbn [andb];
      rewrite ?orb_false_r, ?orb_true_r; reflexivity.
  - exists g'. now split.
Qed.

(** Two well-formed grids with the same cells are the same lists. *)
Lemma wf_column_ext gr x (c : list Z) :
  wf_grid gr -> 0 <= x < GRID_COLS -> len c = GRID_ROWS ->
  (forall y, 0 <= y < GRID_ROWS -> cell gr x y = default 0 (py_get c y)) ->
  column gr x = c.
Proof.
  intros Hwf Hx Hc Hcells.
  destruct (wf_column gr x Hwf Hx) as [_ Hl].
  apply list_eq_same_length with (n := Z.to_nat GRID_ROWS);
    [unfold len in *; lia | unfold len in *; lia |].
  intros i a b Hi Ha Hb.
  assert (Hy : 0 <= Z.of_nat i < GRID_ROWS) by lia.
  specialize (Hcells _ Hy). unfold cell in Hcells.
  rewrite !py_get_of_nat, Ha, Hb in Hcells. exact Hcells.
Qed.

Lemma wf_grid_ext gr gr' :
  wf_grid gr -> wf_grid gr' ->
  (forall x y, in_grid x y -> cell gr x y = cell gr' x y) ->
  gr = gr'.
Proof.
  intros Hwf Hwf' Hcells.
  apply list_eq_same_length with (n := Z.to_nat GRID_COLS);
    [destruct Hwf'; unfold len in *; lia | destruct Hwf; unfold len in *; lia |].
  intros i a b Hi Ha Hb.
  assert (Hx : 0 <= Z.of_nat i < GRID_COLS) by lia.
  destruct (wf_column gr' _ Hwf' Hx) as [Hg' Hl'].
  assert (Hcol : column gr (Z.of_nat i) = column gr' (Z.of_nat i)).
  { apply wf_column_ext; auto. intros y Hy. apply Hcells. now split. }
  unfold column in Hcol. rewrite !py_get_of_nat, Ha, Hb in Hcol. exact Hcol.
Qed.

(** ** The phases of [clear_full_lines] *)

Lemma row_scan_ok g y :
  wf_grid (grid g) -> 0 <= y < GRID_ROWS ->
  row_scan y g = Some (row_is_full (grid g) y, g).
Proof.
  intros Hwf Hy. unfold row_scan, row_is_full.
  apply for_all_reads. intros x Hx%in_range.
  unfold bind. now rewrite grid_get_ok.
Qed.

Lemma col_scan_ok g x :
  wf_grid (grid g) -> 0 <= x < GRID_COLS ->
  col_scan x g = Some (col_is_full (grid g) x, g).
Proof.
  intros Hwf Hx. unfold col_scan, col_is_full.
  apply for_all_reads. intros y Hy%in_range.
  unfold bind. now rewrite grid_get_ok.
Qed.

Lemma zero_row_ok g y :
  wf_grid (grid g) -> 0 <= y < GRID_ROWS ->
  exists g', for_each (range GRID_COLS) (fun x => grid_set x y 0) g = Some (tt, g') /\
    grid_only g g' /\ wf_grid (grid g') /\
    forall x' y', in_grid x' y' ->
      cell (grid g') x' y' = if y =? y' then 0 else cell (grid g) x' y'.
Proof.
  intros Hwf Hy.
  destruct (for_each_grid_set (fun x => (x, y)) (fun _ _ => 0)
              (fun x => grid_set x y 0) (range GRID_COLS) g Hwf)
    as (g' & Hrun & Hfr & Hwf' & Hcells).
  - intros x Hx%in_range. now split.
  - reflexivity.
  - exists g'. repeat split; try assumption; try apply Hwf'.
    intros x' y' Hxy. rewrite Hcells by assumption. cbn [fst snd].
    destruct (Z.eqb_spec y y') as [<- | Hne].
    + replace (existsb _ _) with true; [reflexivity |].
      symmetry. apply existsb_exists. exists x'.
      split; [apply in_range, Hxy | now rewrite Z.eqb_refl].
    + replace (existsb _ _) with false; [reflexivity |].
      symmetry. apply not_true_is_false. intros (a & _ & Ha)%existsb_exists.
      now rewrite andb_false_r in Ha.
Qed.

Lemma zero_col_ok g x :
  wf_grid (grid g) -> 0 <= x < GRID_COLS ->
  exists g', for_each (range GRID_ROWS) (fun y => grid_set x y 0) g = Some (tt, g') /\
    grid_only g g' /\ wf_grid (grid g') /\
    forall x' y', in_grid x' y' ->
      cell (grid g') x' y' = if x =? x' then 0 else cell (grid g) x' y'.
Proof.
  intros Hwf Hx.
  destruct (for_each_grid_set (fun y => (x, y)) (fun _ _ => 0)
              (fun y => grid_set x y 0) (range GRID_ROWS) g Hwf)
    as (g' & Hrun & Hfr & Hwf' & Hcells).
  - intros y Hy%in_range. now split.
  - reflexivity.
  - exists g'. repeat split; try assumption; try apply Hwf'.
    intros x' y' Hxy. rewrite Hcells by assumption. cbn [fst snd].
    destruct (Z.eqb_spec x x') as [<- | Hne].
    + replace (existsb _ _) with true; [reflexivity |].
      symmetry. apply existsb_exists. exists y'.
      split; [apply in_range, Hxy | now rewrite Z.eqb_refl].
    + replace (existsb _ _) with false; [reflexivity |].
      symmetry. apply not_true_is_false. intros (a & _ & Ha)%existsb_exists.
      discriminate Ha.
Qed.

Lemma clear_rows_ok g ys n :
  wf_grid (grid g) -> (forall y, In y ys -> 0 <= y < GRID_ROWS) ->
  exists g', clear_rows ys n g = Some (n + len ys, g') /\
    grid_only g g' /\ wf_grid (grid g') /\
    forall x y, in_grid x y ->
      cell (grid g') x y = if existsb (Z.eqb y) ys then 0 else cell (grid g) x y.
Proof.
  intros Hwf Hys. unfold clear_rows.
  destruct (for_fold_rule
    (fun done k g1 => k = n + len done /\ grid_only g g1 /\ wf_grid (grid g1) /\
       forall x y, in_grid x y ->
         cell (grid g1) x y = if existsb (Z.eqb y) done then 0 else cell (grid g) x y)
    (fun y cleared =>
       for_each (range GRID_COLS) (fun x => grid_set x y 0) ;; ret (cleared + 1))
    ys [] n g) as (k & g' & Hrun & -> & HI).
  - split; [unfold len; cbn; lia |].
    split; [apply grid_only_refl |]. split; [exact Hwf | reflexivity].
  - intros done y k g1 Hin (-> & Hfr & Hwf1 & Hcells).
    destruct (zero_row_ok g1 y Hwf1 (Hys y Hin)) as (g2 & Hrun & Hfr2 & Hwf2 & Hcells2).
    exists (n + len done + 1), g2. unfold bind. rewrite Hrun.
    split; [reflexivity |].
    split; [unfold len; rewrite length_app; cbn; lia |].
    split; [eapply grid_only_trans; eassumption |].
    split; [exact Hwf2 |].
    intros x' y' Hxy. rewrite Hcells2, Hcells, existsb_snoc by assumption.
    rewrite (Z.eqb_sym y' y).
    destruct (y =? y'); [now rewrite orb_true_r | now rewrite orb_false_r].
  - exists g'. split; [exact Hrun | exact HI].
Qed.

Lemma clear_cols_ok g xs n :
  wf_grid (grid g) -> (forall x, In x xs -> 0 <= x < GRID_COLS) ->
  exists g', clear_cols xs n g = Some (n + len xs, g') /\
    grid_only g g' /\ wf_grid (grid g') /\
    forall x y, in_grid x y ->
      cell (grid g') x y = if existsb (Z.eqb x) xs then 0 else cell (grid g) x y.
Proof.
  intros Hwf Hxs. unfold clear_cols.
  destruct (for_fold_rule
    (fun done k g1 => k = n + len done /\ grid_only g g1 /\ wf_grid (grid g1) /\
       forall x y, in_grid x y ->
         cell (grid g1) x y = if existsb (Z.eqb x) done then 0 else cell (grid g) x y)
    (fun x cleared =>
       for_each (range GRID_ROWS) (fun y => grid_set x y 0) ;; ret (cleared + 1))
    xs [] n g) as (k & g' & Hrun & -> & HI).
  - split; [unfold len; cbn; lia |].
    split; [apply grid_only_refl |]. split; [exact Hwf | reflexivity].
  - intros done x k g1 Hin (-> & Hfr & Hwf1 & Hcells).
    destruct (zero_col_ok g1 x Hwf1 (Hxs x Hin)) as (g2 & Hrun & Hfr2 & Hwf2 & Hcells2).
    exists (n + len done + 1), g2. unfold bind. rewrite Hrun.
    split; [reflexivity |].
    split; [unfold len; rewrite length_app; cbn; lia |].
    split; [eapply grid_only_trans; eassumption |].
    split; [exact Hwf2 |].
    intros x' y' Hxy. rewrite Hcells2, Hcells, existsb_snoc by assumption.
    rewrite (Z.eqb_sym x' x).
    destruct (x =? x'); [now rewrite orb_true_r | now rewrite orb_false_r].
  - exists g'. split; [exact Hrun | exact HI].
Qed.

(** ** Gravity collapse *)

Lemma py_get_map_range {B} (f : Z -> B) n y :
  0 <= y < n -> py_get (map f (range n)) y = Some (f y).
Proof.
  intros Hy. rewrite py_get_nat by lia. unfold range. rewrite map_map.
  change (map ?h ?l) with (h <$> l). rewrite list_lookup_fmap.
  rewrite lookup_seq_lt by lia. cbn. f_equal. f_equal. lia.
Qed.

Lemma len_map_range {B} (f : Z -> B) n : 0 <= n -> len (map f (range n)) = n.
Proof.
  intros Hn. unfold len, range. rewrite !length_map, length_seq. lia.
Qed.

Lemma column_as_map gr x :
  wf_grid gr -> 0 <= x < GRID_COLS ->
  column gr x = map (cell gr x) (range GRID_ROWS).
Proof.
  intros Hwf Hx. apply wf_column_ext; [assumption | assumption | |].
  - apply len_map_range. pose proof GRID_ROWS_pos. lia.
  - intros y Hy. now rewrite py_get_map_range.
Qed.

Lemma len_nonzeros_le c : len (nonzeros c) <= len c.
Proof.
  unfold len, nonzeros. pose proof (List.filter_length_le truthy c). lia.
Qed.

Lemma len_collapsed c : len c = GRID_ROWS -> len (collapsed c) = GRID_ROWS.
Proof.
  intros Hc. pose proof (len_nonzeros_le c).
  unfold collapsed, len in *. rewrite length_app, length_replicate. lia.
Qed.

(** The nonzero cells of a collapsed column are those of the column, in
    the same order. *)
Lemma nonzeros_collapsed c : nonzeros (collapsed c) = nonzeros c.
Proof.
  unfold collapsed. generalize (Z.to_nat (GRID_ROWS - len (nonzeros c))) as k.
  intros k. unfold nonzeros at 1. rewrite List.filter_app.
  replace (List.filter truthy (replicate k 0)) with (@nil Z).
  - cbn [app]. unfold nonzeros.
    induction c as [| v c IH]; [reflexivity |]. cbn [List.filter].
    destruct (truthy v) eqn:Hv; cbn [List.filter]; rewrite ?Hv; [f_equal |]; exact IH.
  - induction k as [| k IH]; [reflexivity | exact IH].
Qed.

Lemma collapse_column_ok g x :
  wf_grid (grid g) -> 0 <= x < GRID_COLS ->
  exists g', collapse_column x g = Some (tt, g') /\
    grid_only g g' /\ wf_grid (grid g') /\
    forall x', 0 <= x' < GRID_COLS ->
      column (grid g') x' =
        if x =? x' then collapsed (column (grid g) x) else column (grid g) x'.
Proof.
  intros Hwf Hx. unfold collapse_column, bind.
  rewrite (comprehension_reads _ _ _
             (fun y => negb (cell (grid g) x y =? 0)) (cell (grid g) x)).
  2:{ intros y Hy%in_range. unfold bind. now rewrite grid_get_ok. }
  2:{ intros y Hy%in_range. now apply grid_get_ok. }
  rewrite <- (List.filter_map_swap truthy (cell (grid g) x)).
  rewrite <- column_as_map by assumption.
  fold (nonzeros (column (grid g) x)). fold (collapsed (column (grid g) x)).
  destruct (wf_column _ x Hwf Hx) as [_ Hl].
  pose proof (len_collapsed _ Hl) as Hlc.
  set (newcol := collapsed (column (grid g) x)) in *.
  destruct (for_each_grid_set (fun y => (x, y))
              (fun _ y => default 0 (py_get newcol y))
              (fun y => v <- lift (py_get newcol y) ;; grid_set x y v)
              (range GRID_ROWS) g Hwf)
    as (g' & Hrun & Hfr & Hwf' & Hcells).
  - intros y Hy%in_range. now split.
  - intros y g1 Hy%in_range Hwf1. cbn [fst snd]. unfold bind, lift.
    destruct (py_get_is_Some newcol y) as [v ->]; [lia | reflexivity].
  - exists g'. repeat split; try assumption; try apply Hwf'.
    intros x' Hx'. destruct (Z.eqb_spec x x') as [<- | Hne].
    + apply wf_column_ext; try assumption.
      intros y Hy. rewrite Hcells by (now split). cbn [fst snd].
      replace (existsb _ _) with true; [reflexivity |].
      symmetry. apply existsb_exists. exists y.
      split; [now apply in_range | now rewrite !Z.eqb_refl].
    + destruct (wf_column _ x' Hwf Hx') as [_ Hl'].
      apply wf_column_ext; try assumption.
      intros y Hy. rewrite Hcells by (now split). cbn [fst snd].
      replace (existsb _ _) with false; [reflexivity |].
      symmetry. apply not_true_is_false. intros (a & _ & Ha)%existsb_exists.
      destruct (Z.eqb_spec x x'); [contradiction | discriminate Ha].
Qed.

Lemma gravity_collapse_ok g :
  wf_grid (grid g) ->
  exists g', gravity_collapse g = Some (tt, g') /\
    grid_only g g' /\ wf_grid (grid g') /\
    forall x, 0 <= x < GRID_COLS ->
      column (grid g') x = collapsed (column (grid g) x).
Proof.
  intros Hwf. unfold gravity_collapse.
  destruct (for_each_rule
    (fun done g1 => grid_only g g1 /\ wf_grid (grid g1) /\
       forall x, 0 <= x < GRID_COLS ->
         column (grid g1) x =
           if existsb (Z.eqb x) done then collapsed (column (grid g) x)
           else column (grid g) x)
    collapse_column (range GRID_COLS) [] g) as (g' & Hrun & Hfr & Hwf' & Hcols).
  - split; [apply grid_only_refl |]. split; [exact Hwf | reflexivity].
  - intros done x g1 Hin%in_range (Hfr & Hwf1 & Hcols).
    destruct (collapse_column_ok g1 x Hwf1 Hin) as (g2 & Hrun & Hfr2 & Hwf2 & Hcols2).
    exists g2. split; [exact Hrun |].
    split; [eapply grid_only_trans; eassumption |]. split; [exact Hwf2 |].
    intros x' Hx'. rewrite Hcols2, existsb_snoc by assumption.
    rewrite (Z.eqb_sym x' x).
    destruct (Z.eqb_spec x x') as [<- | Hne].
    + rewrite orb_true_r. rewrite Hcols by assumption.
      destruct (existsb (Z.eqb x) done) eqn:Hdone; [| reflexivity].
      (* a column collapsed twice: the second collapse changes nothing *)
      destruct (wf_column _ x Hwf Hx') as [_ Hl].
      pose proof (len_collapsed _ Hl) as Hlc.
      pose proof (nonzeros_collapsed (column (grid g) x)) as Hnz.
      unfold collapsed at 1. rewrite Hnz. reflexivity.
    + rewrite orb_false_r. now apply Hcols.
  - exists g'. repeat split; try assumption; try apply Hwf'.
    intros x Hx. cbn [app] in Hcols. rewrite Hcols by assumption.
    now rewrite existsb_eqb_range.
Qed.

(** ** [clear_full_lines] as a whole *)

Lemma existsb_eqb_filter (p : Z -> bool) n y :
  0 <= y < n -> existsb (Z.eqb y) (List.filter p (range n)) = p y.
Proof.
  intros Hy. destruct (p y) eqn:Hp.
  - apply existsb_exists. exists y. split; [| apply Z.eqb_refl].
    apply filter_In. split; [now apply in_range | exact Hp].
  - apply not_true_is_false. intros (a & Hin & Ha)%existsb_exists.
    apply Z.eqb_eq in Ha. subst a. apply filter_In in Hin. destruct Hin. congruence.
Qed.

Lemma clear_full_lines_ok g :
  wf_grid (grid g) ->
  exists g1 g2 g3 n,
    clear_full_lines g = Some (n, g3) /\ clear_trace g g1 g2 g3 n.
Proof.
  intros Hwf. unfold clear_full_lines, bind.
  rewrite (select_reads _ _ (row_is_full (grid g)))
    by (intros y Hy%in_range; now apply row_scan_ok).
  fold (full_rows (grid g)).
  destruct (clear_rows_ok g (full_rows (grid g)) 0 Hwf)
    as (g1 & -> & Hfr1 & Hwf1 & Hc1).
  { intros y [Hy _]%filter_In. now apply in_range. }
  rewrite (select_reads _ _ (col_is_full (grid g1)))
    by (intros x Hx%in_range; now apply col_scan_ok).
  fold (full_cols (grid g1)).
  destruct (clear_cols_ok g1 (full_cols (grid g1)) (0 + len (full_rows (grid g))) Hwf1)
    as (g2 & -> & Hfr2 & Hwf2 & Hc2).
  { intros x [Hx _]%filter_In. now apply in_range. }
  set (n := 0 + len (full_rows (grid g)) + len (full_cols (grid g1))).
  assert (Hn : n = len (full_rows (grid g)) + len (full_cols (grid g1))) by (subst n; lia).
  assert (H1 : forall x y, in_grid x y ->
             cell (grid g1) x y = if row_is_full (grid g) y then 0 else cell (grid g) x y).
  { intros x y Hxy. rewrite Hc1 by assumption. unfold full_rows.
    now rewrite existsb_eqb_filter by apply Hxy. }
  assert (H2 : forall x y, in_grid x y ->
             cell (grid g2) x y = if col_is_full (grid g1) x then 0 else cell (grid g1) x y).
  { intros x y Hxy. rewrite Hc2 by assumption. unfold full_cols.
    now rewrite existsb_eqb_filter by apply Hxy. }
  destruct (n >? 0) eqn:Hpos.
  - destruct (gravity_collapse_ok g2 Hwf2) as (g3 & -> & Hfr3 & Hwf3 & Hc3).
    exists g1, g2, g3, n. split; [reflexivity |].
    unfold clear_trace. rewrite Hpos. repeat split; try assumption;
      try apply Hwf1; try apply Hwf2; try apply Hwf3.
  - exists g1, g2, g2, n. split; [reflexivity |].
    unfold clear_trace. rewrite Hpos. repeat split; try assumption;
      try apply Hwf1; try apply Hwf2. apply grid_only_refl.
Qed.

(** ** Full rows and columns, and what a call leaves of them *)

Lemma forallb_range_true (p : Z -> bool) n :
  forallb p (range n) = true <-> forall i, 0 <= i < n -> p i = true.
Proof.
  rewrite forallb_forall. split; intros H i Hi; apply H; now apply in_range.
Qed.

Lemma row_is_full_iff gr y : row_is_full gr y = true <-> row_full gr y.
Proof.
  unfold row_is_full, row_full. rewrite forallb_range_true.
  split; intros H x Hx; specialize (H x Hx);
    destruct (Z.eqb_spec (cell gr x y) 0); cbn in *; congruence.
Qed.

Lemma col_is_full_iff gr x : col_is_full gr x = true <-> col_full gr x.
Proof.
  unfold col_is_full, col_full. rewrite forallb_range_true.
  split; intros H y Hy; specialize (H y Hy);
    destruct (Z.eqb_spec (cell gr x y) 0); cbn in *; congruence.
Qed.

Lemma row_is_full_zero gr x y :
  0 <= x < GRID_COLS -> cell gr x y = 0 -> row_is_full gr y = false.
Proof.
  intros Hx Hz. apply not_true_is_false. intros H%row_is_full_iff.
  now apply (H x Hx).
Qed.

Lemma col_is_full_zero gr x y :
  0 <= y < GRID_ROWS -> cell gr x y = 0 -> col_is_full gr x = false.
Proof.
  intros Hy Hz. apply not_true_is_false. intros H%col_is_full_iff.
  now apply (H y Hy).
Qed.

Lemma forallb_false_witness {A} (p : A -> bool) l :
  forallb p l = false -> exists a, In a l /\ p a = false.
Proof.
  induction l as [| a l IH]; cbn [forallb]; [discriminate |].
  destruct (p a) eqn:Hp; cbn [andb].
  - intros (b & Hb & Hpb)%IH. exists b. split; [now right | exact Hpb].
  - intros _. exists a. split; [now left | exact Hp].
Qed.

Lemma col_is_full_false gr x :
  col_is_full gr x = false -> exists y, 0 <= y < GRID_ROWS /\ cell gr x y = 0.
Proof.
  unfold col_is_full. intros H.
  destruct (forallb_false_witness _ _ H) as [y [Hy%in_range Hc]].
  exists y. split; [exact Hy |].
    destruct (Z.eqb_spec (cell gr x y) 0); [assumption | discriminate].
Qed.

Lemma filter_nil_iff {A} (p : A -> bool) l :
  List.filter p l = [] <-> forall a, In a l -> p a = false.
Proof.
  induction l as [| a l IH]; cbn [List.filter].
  - split; [intros _ a [] | reflexivity].
  - destruct (p a) eqn:Hp; split.
    + discriminate.
    + intros H. specialize (H a (or_introl eq_refl)). congruence.
    + intros H b [<- | Hb]; [exact Hp | now apply IH].
    + intros H. apply IH. intros b Hb. apply H. now right.
Qed.

Lemma len_zero_nil {A} (l : list A) : len l = 0 <-> l = [].
Proof.
  unfold len. split; [| now intros ->]. destruct l; [reflexivity | cbn; lia].
Qed.

Lemma len_nonneg {A} (l : list A) : 0 <= len l.
Proof. unfold len. lia. Qed.

Lemma full_rows_nil gr :
  full_rows gr = [] <-> forall y, 0 <= y < GRID_ROWS -> row_is_full gr y = false.
Proof.
  unfold full_rows. rewrite filter_nil_iff.
  split; intros H y Hy; apply H; now apply in_range.
Qed.

Lemma full_cols_nil gr :
  full_cols gr = [] <-> forall x, 0 <= x < GRID_COLS -> col_is_full gr x = false.
Proof.
  unfold full_cols. rewrite filter_nil_iff.
  split; intros H x Hx; apply H; now apply in_range.
Qed.

(** A grid changed only in its contents, and not even there, is the same
    state. *)
Lemma grid_only_same g g' :
  grid_only g g' -> wf_grid (grid g) -> wf_grid (grid g') ->
  (forall x y, in_grid x y -> cell (grid g') x y = cell (grid g) x y) ->
  g' = g.
Proof.
  intros Hfr Hwf Hwf' Hc. rewrite Hfr.
  rewrite (wf_grid_ext (grid g') (grid g) Hwf' Hwf Hc). now destruct g.
Qed.

Section Trace.
Variables (g g1 g2 g3 : Game) (n : Z).
Hypothesis Hwf : wf_grid (grid g).
Hypothesis Htr : clear_trace g g1 g2 g3 n.

(** After the clearing phase no column is full. *)
Lemma trace_g2_no_full_col x : 0 <= x < GRID_COLS -> col_is_full (grid g2) x = false.
Proof.
  intros Hx. destruct Htr as (_ & (_ & _ & H2) & _).
  destruct (col_is_full (grid g1) x) eqn:Hfull.
  - apply col_is_full_zero with (y := 0); [pose proof GRID_ROWS_pos; lia |].
    rewrite H2 by (split; [assumption | pose proof GRID_ROWS_pos; lia]).
    now rewrite Hfull.
  - destruct (col_is_full_false _ _ Hfull) as (y & Hy & Hz).
    apply col_is_full_zero with (y := y); [assumption |].
    rewrite H2 by (now split). now rewrite Hfull.
Qed.

Lemma trace_wf : wf_grid (grid g3).
Proof. apply Htr. Qed.

Lemma trace_grid_only : grid_only g g3.
Proof.
  destruct Htr as ((H1 & _) & (H2 & _) & (H3 & _) & _).
  eapply grid_only_trans; [| exact H3]. eapply grid_only_trans; eassumption.
Qed.

Lemma trace_count_nonneg : 0 <= n.
Proof.
  destruct Htr as (_ & _ & _ & ->).
  pose proof (len_nonneg (full_rows (grid g))).
  pose proof (len_nonneg (full_cols (grid g1))). lia.
Qed.

(** When nothing is counted nothing was full and nothing changes. *)
Lemma trace_zero :
  n = 0 -> g3 = g /\ full_rows (grid g) = [] /\ full_cols (grid g) = [].
Proof.
  intros Hn. destruct Htr as ((Hf1 & Hwf1 & H1) & (Hf2 & Hwf2 & H2) & (_ & _ & H3) & Hcount).
  pose proof (len_nonneg (full_rows (grid g))).
  pose proof (len_nonneg (full_cols (grid g1))).
  assert (Hr : full_rows (grid g) = []) by (apply len_zero_nil; lia).
  assert (Hc : full_cols (grid g1) = []) by (apply len_zero_nil; lia).
  assert (E1 : g1 = g).
  { apply grid_only_same; try assumption. intros x y Hxy.
    rewrite H1 by assumption.
    now rewrite (proj1 (full_rows_nil _) Hr y (proj2 Hxy)). }
  subst g1.
  assert (E2 : g2 = g).
  { apply grid_only_same; try assumption. intros x y Hxy.
    rewrite H2 by assumption.
    now rewrite (proj1 (full_cols_nil _) Hc x (proj1 Hxy)). }
  subst g2. subst n. cbn in H3. now subst g3.
Qed.

(** The collapse keeps a column that has an empty cell from being full. *)
Lemma trace_g3_no_full_col x : 0 <= x < GRID_COLS -> col_is_full (grid g3) x = false.
Proof.
  intros Hx. pose proof (trace_g2_no_full_col x Hx) as H2.
  destruct Htr as (_ & (_ & Hwf2 & _) & (_ & Hwf3 & H3) & _).
  destruct (n >? 0); [| now subst g3].
  apply col_is_full_zero with (y := 0); [pose proof GRID_ROWS_pos; lia |].
  unfold cell. rewrite H3 by assumption.
  destruct (wf_column _ x Hwf2 Hx) as [_ Hl].
  assert (Hlt : len (nonzeros (column (grid g2) x)) < GRID_ROWS).
  { destruct (col_is_full_false _ _ H2) as (y & Hy & Hz).
    pose proof (wf_cell _ x y Hwf2 (conj Hx Hy)) as Hget. rewrite Hz in Hget.
    rewrite py_get_nat in Hget by lia.
    apply list_elem_of_lookup_2, list_elem_of_In in Hget.
    pose proof (len_nonzeros_le (column (grid g2) x)) as Hle.
    destruct (Z.eq_dec (len (nonzeros (column (grid g2) x))) GRID_ROWS) as [He |]; [| lia].
    exfalso. rewrite <- Hl in He. unfold len, nonzeros in He.
    apply Nat2Z.inj, List.filter_length_forallb in He.
    rewrite forallb_forall in He. specialize (He 0 Hget). discriminate He. }
  unfold collapsed. rewrite py_get_nat by lia. change (Z.to_nat 0) with 0%nat.
  rewrite lookup_app_l by (rewrite length_replicate; lia).
  rewrite lookup_replicate_2 by lia. reflexivity.
Qed.

End Trace.

Lemma trace_rows_nil g g1 g2 g3 n :
  wf_grid (grid g) -> clear_trace g g1 g2 g3 n -> full_rows (grid g) = [] -> g1 = g.
Proof.
  intros Hwf ((Hf1 & Hwf1 & H1) & _) Hr.
  apply grid_only_same; try assumption. intros x y Hxy.
  rewrite H1 by assumption.
  now rewrite (proj1 (full_rows_nil _) Hr y (proj2 Hxy)).
Qed.

Lemma gravity_collapse_map g g' :
  wf_grid (grid g) -> wf_grid (grid g') ->
  (forall x, 0 <= x < GRID_COLS -> column (grid g') x = collapsed (column (grid g) x)) ->
  grid g' = map collapsed (grid g).
Proof.
  intros [Hl _] [Hl' _] Hcols.
  apply list_eq_same_length with (n := Z.to_nat GRID_COLS);
    [rewrite length_map; unfold len in *; lia | unfold len in *; lia |].
  intros i a b Hi Ha Hb.
  assert (Hx : 0 <= Z.of_nat i < GRID_COLS) by lia.
  specialize (Hcols _ Hx). unfold column in Hcols.
  change (map ?h ?l) with (h <$> l) in Hb. rewrite list_lookup_fmap in Hb.
  rewrite !py_get_of_nat, Ha in Hcols. cbn in Hcols.
  destruct (grid g !! i) as [c |]; [| discriminate Hb].
  cbn in Hb, Hcols. congruence.
Qed.

Lemma total_nonzero_collapsed gr :
  total_nonzero (map collapsed gr) = total_nonzero gr.
Proof.
  unfold total_nonzero. f_equal.
  induction gr as [| c gr IH]; [reflexivity |].
  cbn [map concat]. unfold nonzeros in *. rewrite !List.filter_app, IH.
  f_equal. apply nonzeros_collapsed.
Qed.

(** Well-formedness of a concrete state, by computation. *)
Ltac solve_wf :=
  repeat match goal with
         | |- _ /\ _ => split
         | |- Forall _ _ => constructor
         | |- wf_game _ => unfold wf_game
         | |- wf_grid _ => unfold wf_grid
         | |- wf_piece _ => unfold wf_piece
         | |- _ = _ => reflexivity
         | |- _ < _ => reflexivity
         | |- _ <= _ => discriminate
         end.

(** ** Theorems on [clear_full_lines] *)

(** C1: on the board where row 0 and column 0 are both full (the state
    right after a single block is placed on their crossing),
    [clear_full_lines] returns 1: the row is zeroed before the columns are
    scanned, so column 0 is no longer seen as full and keeps its other
    nine cells.  Through [place_piece] the same move scores the ten points
    of the block plus one bonus of 50. *)
Theorem cross_clear_counts_one_line :
  row_full cross_grid 0 /\ col_full cross_grid 0 /\
  clear_full_lines (board cross_grid) = Some (1, board cross_cleared_grid) /\
  exists g', place_piece [] [] 0 0 0 (board cross_open_grid) = Some (true, g') /\
    grid g' = cross_cleared_grid /\ score g' = 10 + 50.
Proof.
  split; [apply row_is_full_iff; vm_compute; reflexivity |].
  split; [apply col_is_full_iff; vm_compute; reflexivity |].
  split; [vm_compute; reflexivity |].
  eexists. split; [vm_compute; reflexivity |]. split; reflexivity.
Qed.

(** C2, as the code has it: after [clear_full_lines] returns no column of
    the grid is full, and no row is full either when the call returned 0.
    (After a call that cleared something the collapse may have assembled a
    full row.) *)
Theorem clear_full_lines_leaves_no_full_column g :
  wf_grid (grid g) ->
  exists n g', clear_full_lines g = Some (n, g') /\
    (forall x, 0 <= x < GRID_COLS -> ~ col_full (grid g') x) /\
    (n = 0 -> forall y, 0 <= y < GRID_ROWS -> ~ row_full (grid g') y).
Proof.
  intros Hwf.
  destruct (clear_full_lines_ok g Hwf) as (g1 & g2 & g3 & n & Hrun & Htr).
  exists n, g3. split; [exact Hrun |]. split.
  - intros x Hx Hfull%col_is_full_iff.
    rewrite (trace_g3_no_full_col g g1 g2 g3 n Htr x Hx) in Hfull. discriminate.
  - intros Hn y Hy Hfull%row_is_full_iff.
    destruct (trace_zero g g1 g2 g3 n Hwf Htr Hn) as (-> & Hr & _).
    rewrite (proj1 (full_rows_nil _) Hr y Hy) in Hfull. discriminate.
Qed.

Lemma clear_full_lines_leaves_no_full_column_witness :
  exists n g', clear_full_lines (board cross_grid) = Some (n, g') /\
    (forall x, 0 <= x < GRID_COLS -> ~ col_full (grid g') x) /\
    (n = 0 -> forall y, 0 <= y < GRID_ROWS -> ~ row_full (grid g') y).
Proof.
  apply (clear_full_lines_leaves_no_full_column (board cross_grid)).
  solve_wf.
Defined.

(** C2 fails as stated: clearing the bottom row of [stacked_grid] lets the
    cells above fall into it, and the call returns with row 9 full. *)
Lemma stacked_clear_leaves_full_row :
  exists g', clear_full_lines (board stacked_grid) = Some (1, g') /\
    row_full (grid g') 9.
Proof.
  eexists. split; [vm_compute; reflexivity |].
  apply row_is_full_iff. vm_compute. reflexivity.
Qed.

(** C3, as the code has it: the second of two calls in a row clears no
    column and returns the number of rows the first call left full; it
    returns 0, changing nothing, when the first call returned 0 or left
    no row full. *)
Theorem second_clear_counts_rows_left_full g :
  wf_grid (grid g) ->
  exists n g' g'',
    clear_full_lines g = Some (n, g') /\
    clear_full_lines g' = Some (len (full_rows (grid g')), g'') /\
    (n = 0 \/ (forall y, 0 <= y < GRID_ROWS -> ~ row_full (grid g') y) ->
     clear_full_lines g' = Some (0, g')).
Proof.
  intros Hwf.
  destruct (clear_full_lines_ok g Hwf) as (g1 & g2 & g3 & n & Hrun & Htr).
  pose proof (trace_wf _ _ _ _ _ Htr) as Hwf3.
  destruct (clear_full_lines_ok g3 Hwf3) as (h1 & h2 & h3 & m & Hrun2 & Htr2).
  assert (Hcols : full_cols (grid h1) = []).
  { apply full_cols_nil. intros x Hx.
    pose proof (trace_g3_no_full_col g g1 g2 g3 n Htr x Hx) as Hnf.
    destruct (col_is_full_false _ _ Hnf) as (y & Hy & Hz).
    apply col_is_full_zero with (y := y); [assumption |].
    destruct Htr2 as ((_ & _ & H1) & _). rewrite H1 by (now split).
    rewrite Hz. now destruct (row_is_full (grid g3) y). }
  assert (Hm : m = len (full_rows (grid g3))).
  { destruct Htr2 as (_ & _ & _ & ->). rewrite Hcols. unfold len. cbn [length]. lia. }
  exists n, g3, h3. split; [exact Hrun |]. split; [now rewrite <- Hm |].
  intros Hcase.
  assert (Hrows : full_rows (grid g3) = []).
  { destruct Hcase as [Hn | Hnone].
    - destruct (trace_zero g g1 g2 g3 n Hwf Htr Hn) as (-> & Hr & _). exact Hr.
    - apply full_rows_nil. intros y Hy. apply not_true_is_false.
      intros Hfull%row_is_full_iff. exact (Hnone y Hy Hfull). }
  rewrite Hrows in Hm. change (len []) with 0 in Hm.
  destruct (trace_zero g3 h1 h2 h3 m Hwf3 Htr2 Hm) as (E & _).
  now rewrite Hrun2, Hm, E.
Qed.

Lemma second_clear_counts_rows_left_full_witness :
  exists n g' g'',
    clear_full_lines (board cross_grid) = Some (n, g') /\
    clear_full_lines g' = Some (len (full_rows (grid g')), g'') /\
    (n = 0 \/ (forall y, 0 <= y < GRID_ROWS -> ~ row_full (grid g') y) ->
     clear_full_lines g' = Some (0, g')).
Proof.
  apply (second_clear_counts_rows_left_full (board cross_grid)).
  solve_wf.
Defined.

(** C3 fails as stated: on [stacked_grid] the first call clears row 9, the
    collapse refills it, and the second call returns 1. *)
Lemma stacked_second_clear_returns_one :
  exists g' g'', clear_full_lines (board stacked_grid) = Some (1, g') /\
    clear_full_lines g' = Some (1, g'').
Proof.
  eexists. eexists. split; vm_compute; reflexivity.
Qed.

(** C9: the gravity collapse that ends [clear_full_lines] runs on every
    well-formed grid and replaces each column by its collapsed form:
    the nonzero cells of each column are the same values in the same
    order (so the same multiset and the same count), the column keeps its
    length, and the number of nonzero cells of the whole grid is
    unchanged. *)
Theorem gravity_collapse_keeps_cells g :
  wf_grid (grid g) ->
  exists g', gravity_collapse g = Some (tt, g') /\
    (forall x, 0 <= x < GRID_COLS ->
       nonzeros (column (grid g') x) = nonzeros (column (grid g) x) /\
       len (nonzeros (column (grid g') x)) = len (nonzeros (column (grid g) x)) /\
       len (column (grid g') x) = len (column (grid g) x)) /\
    total_nonzero (grid g') = total_nonzero (grid g).
Proof.
  intros Hwf.
  destruct (gravity_collapse_ok g Hwf) as (g' & Hrun & _ & Hwf' & Hcols).
  exists g'. split; [exact Hrun |]. split.
  - intros x Hx. rewrite Hcols by assumption.
    destruct (wf_column _ x Hwf Hx) as [_ Hl].
    rewrite nonzeros_collapsed, len_collapsed by assumption.
    repeat split. now rewrite Hl.
  - rewrite (gravity_collapse_map g g' Hwf Hwf' Hcols).
    apply total_nonzero_collapsed.
Qed.

Lemma gravity_collapse_keeps_cells_witness :
  exists g', gravity_collapse (board stacked_grid) = Some (tt, g') /\
    (forall x, 0 <= x < GRID_COLS ->
       nonzeros (column (grid g') x) = nonzeros (column (grid (board stacked_grid)) x) /\
       len (nonzeros (column (grid g') x))
         = len (nonzeros (column (grid (board stacked_grid)) x)) /\
       len (column (grid g') x) = len (column (grid (board stacked_grid)) x)) /\
    total_nonzero (grid g') = total_nonzero (grid (board stacked_grid)).
Proof.
  apply (gravity_collapse_keeps_cells (board stacked_grid)).
  solve_wf.
Defined.

(** C10: on a board with no full row and no full column
    [clear_full_lines] returns 0 and the state it returns is the state it
    was given: no cell is written and no collapse is run. *)
Theorem clear_full_lines_nothing_full g :
  wf_grid (grid g) ->
  (forall y, 0 <= y < GRID_ROWS -> ~ row_full (grid g) y) ->
  (forall x, 0 <= x < GRID_COLS -> ~ col_full (grid g) x) ->
  clear_full_lines g = Some (0, g).
Proof.
  intros Hwf Hrows Hcols.
  destruct (clear_full_lines_ok g Hwf) as (g1 & g2 & g3 & n & Hrun & Htr).
  assert (Hr : full_rows (grid g) = []).
  { apply full_rows_nil. intros y Hy. apply not_true_is_false.
    intros H%row_is_full_iff. exact (Hrows y Hy H). }
  assert (Hc : full_cols (grid g) = []).
  { apply full_cols_nil. intros x Hx. apply not_true_is_false.
    intros H%col_is_full_iff. exact (Hcols x Hx H). }
  pose proof (trace_rows_nil _ _ _ _ _ Hwf Htr Hr) as E1.
  assert (Hn : n = 0).
  { destruct Htr as (_ & _ & _ & ->). rewrite E1, Hr, Hc. reflexivity. }
  destruct (trace_zero g g1 g2 g3 n Hwf Htr Hn) as (E & _).
  now rewrite Hrun, Hn, E.
Qed.

Lemma clear_full_lines_nothing_full_witness :
  clear_full_lines (board cross_cleared_grid) = Some (0, board cross_cleared_grid).
Proof.
  apply (clear_full_lines_nothing_full (board cross_cleared_grid)).
  - solve_wf.
  - intros y Hy H%row_is_full_iff. revert H.
    assert (Hin : In y (range GRID_ROWS)) by (now apply in_range).
    vm_compute in Hin. repeat (destruct Hin as [<- | Hin]; [vm_compute; discriminate |]).
    destruct Hin.
  - intros x Hx H%col_is_full_iff. revert H.
    assert (Hin : In x (range GRID_COLS)) by (now apply in_range).
    vm_compute in Hin. repeat (destruct Hin as [<- | Hin]; [vm_compute; discriminate |]).
    destruct Hin.
Defined.

(** ** [can_place_piece] *)

Lemma out_of_grid_false p x y : out_of_grid p x y = false <-> box_in_grid p x y.
Proof.
  unfold out_of_grid, box_in_grid. rewrite !orb_false_iff.
  rewrite !Z.ltb_ge. rewrite !Z.gtb_ltb, !Z.ltb_ge. tauto.
Qed.

Lemma wf_piece_row0 p : wf_piece p -> exists row0, py_get p 0 = Some row0 /\ len row0 = width p.
Proof.
  intros [Hh _]. unfold width.
  destruct (py_get_is_Some p 0) as [row0 Hr]; [unfold height in Hh; lia |].
  exists row0. now rewrite Hr.
Qed.

Lemma wf_piece_cell p px py :
  wf_piece p -> 0 <= px < width p -> 0 <= py < height p ->
  exists prow, py_get p py = Some prow /\ py_get prow px = Some (piece_cell p px py).
Proof.
  intros [Hh Hrows] Hpx Hpy. unfold piece_cell.
  destruct (py_get_is_Some p py) as [prow Hr]; [exact Hpy |].
  exists prow. rewrite Hr. split; [reflexivity |]. cbn.
  assert (Hl : len prow = width p).
  { rewrite py_get_nat in Hr by lia. rewrite Forall_lookup in Hrows.
    exact (Hrows _ _ Hr). }
  destruct (py_get_is_Some prow px) as [c Hc]; [lia |]. now rewrite Hc.
Qed.

Lemma can_place_piece_ok g p x y :
  wf_grid (grid g) -> wf_piece p ->
  can_place_piece p x y g = Some (fits (grid g) p x y, g).
Proof.
  intros Hwf Hp. unfold can_place_piece, bind, lift.
  destruct (wf_piece_row0 p Hp) as (row0 & Hr0 & Hw). rewrite Hr0, Hw.
  fold (height p). fold (out_of_grid p x y). unfold fits.
  destruct (out_of_grid p x y) eqn:Hout; [reflexivity |].
  apply out_of_grid_false in Hout. destruct Hout as (Hx & Hy & Hxw & Hyh).
  cbn [negb andb]. unfold cells_free.
  apply for_all_reads. intros px Hpx%in_range.
  apply for_all_reads. intros py Hpy%in_range.
  destruct (wf_piece_cell p px py Hp Hpx Hpy) as (prow & -> & ->).
  destruct (truthy (piece_cell p px py)); [| reflexivity].
  rewrite grid_get_ok; [reflexivity | assumption |].
  split; lia.
Qed.

Lemma fits_iff gr p x y :
  fits gr p x y = true <->
  box_in_grid p x y /\
  forall px py, occupied p px py -> cell gr (x + px) (y + py) = 0.
Proof.
  unfold fits. rewrite andb_true_iff, negb_true_iff, out_of_grid_false.
  apply and_iff_compat_l. unfold cells_free. rewrite forallb_range_true.
  split.
  - intros H px py (Hpx & Hpy & Hocc). specialize (H px Hpx).
    rewrite forallb_range_true in H. specialize (H py Hpy).
    unfold truthy in H. destruct (Z.eqb_spec (piece_cell p px py) 0); [contradiction |].
    now apply Z.eqb_eq.
  - intros H px Hpx. rewrite forallb_range_true. intros py Hpy.
    unfold truthy. destruct (Z.eqb_spec (piece_cell p px py) 0); [reflexivity |].
    apply Z.eqb_eq. apply H. now repeat split.
Qed.

(** C4: on a well-formed board and for a rectangular piece,
    [can_place_piece] returns; it returns true exactly when the bounding
    box of the piece at the anchor lies in the grid and every occupied cell
    of the piece falls on a board cell holding 0; the state it returns is
    the state it was given. *)
Theorem can_place_piece_iff g p x y :
  wf_grid (grid g) -> wf_piece p ->
  exists b, can_place_piece p x y g = Some (b, g) /\
    (b = true <->
     box_in_grid p x y /\
     forall px py, occupied p px py -> cell (grid g) (x + px) (y + py) = 0).
Proof.
  intros Hwf Hp. exists (fits (grid g) p x y).
  split; [now apply can_place_piece_ok | apply fits_iff].
Qed.

Lemma can_place_piece_iff_witness :
  exists b, can_place_piece [[1]] 0 0 open_game = Some (b, open_game) /\
    (b = true <->
     box_in_grid [[1]] 0 0 /\
     forall px py, occupied [[1]] px py -> cell (grid open_game) (0 + px) (0 + py) = 0).
Proof.
  apply (can_place_piece_iff open_game [[1]] 0 0); solve_wf.
Defined.

(** ** Reachability, [place_piece] and the mouse handler *)

Lemma wf_game_piece g i :
  wf_game g -> 0 <= i < 3 ->
  exists u p c, py_get (used g) i = Some u /\ py_get (pieces g) i = Some p /\
    py_get (piece_colors g) i = Some c /\ wf_piece p /\ 0 <= c < len PARTICLE_COLORS.
Proof.
  intros (_ & Hu & Hp & Hc & Hwp & Hwc) Hi.
  destruct (py_get_is_Some (used g) i) as [u Hgu]; [lia |].
  destruct (py_get_is_Some (pieces g) i) as [p Hgp]; [lia |].
  destruct (py_get_is_Some (piece_colors g) i) as [c Hgc]; [lia |].
  exists u, p, c. repeat split; try assumption.
  - rewrite py_get_nat in Hgp by lia. rewrite Forall_lookup in Hwp.
    apply (Hwp _ _ Hgp).
  - rewrite py_get_nat in Hgp by lia. rewrite Forall_lookup in Hwp.
    apply (Hwp _ _ Hgp).
  - rewrite py_get_nat in Hgc by lia. rewrite Forall_lookup in Hwc.
    apply (Hwc _ _ Hgc).
  - rewrite py_get_nat in Hgc by lia. rewrite Forall_lookup in Hwc.
    apply (Hwc _ _ Hgc).
Qed.

Lemma any_valid_for_index_ok g i :
  wf_game g -> 0 <= i < 3 ->
  any_valid_for_index i g = Some (movable g i, g).
Proof.
  intros Hg Hi.
  destruct (wf_game_piece g i Hg Hi) as (u & p & c & Hu & Hp & _ & Hwp & _).
  unfold any_valid_for_index, movable, used_get, pieces_get, bind, gets, lift.
  rewrite Hu, Hp. destruct u; [reflexivity |].
  destruct (wf_piece_row0 p Hwp) as (row0 & Hr0 & Hw). rewrite Hp, Hr0, Hw.
  fold (height p). unfold placeable.
  apply for_any_reads. intros gx _.
  apply for_any_reads. intros gy _.
  apply can_place_piece_ok; [apply Hg | exact Hwp].
Qed.

Lemma any_move_exists_ok g :
  wf_game g -> any_move_exists g = Some (existsb (movable g) (range 3), g).
Proof.
  intros Hg. unfold any_move_exists.
  apply for_any_reads. intros i Hi%in_range. now apply any_valid_for_index_ok.
Qed.

Lemma existsb_range_true (p : Z -> bool) n :
  existsb p (range n) = true <-> exists i, 0 <= i < n /\ p i = true.
Proof.
  rewrite existsb_exists. split; intros (i & Hi & Hp); exists i;
    (split; [now apply in_range | exact Hp]).
Qed.

Lemma placeable_iff gr p :
  placeable gr p = true <->
  exists gx gy, 0 <= gx <= GRID_COLS - width p /\ 0 <= gy <= GRID_ROWS - height p /\
    fits gr p gx gy = true.
Proof.
  unfold placeable. rewrite existsb_range_true. split.
  - intros (gx & Hgx & (gy & Hgy & Hf)%existsb_range_true).
    exists gx, gy. repeat split; try assumption; lia.
  - intros (gx & gy & Hgx & Hgy & Hf). exists gx. split; [lia |].
    apply existsb_range_true. exists gy. split; [lia | exact Hf].
Qed.

(** A piece that fits somewhere fits at an anchor of the search. *)
Lemma fits_placeable gr p x y : fits gr p x y = true -> placeable gr p = true.
Proof.
  intros Hf. apply placeable_iff. exists x, y.
  pose proof (proj1 (fits_iff gr p x y) Hf) as [(Hx & Hy & Hxw & Hyh) _].
  repeat split; try assumption; lia.
Qed.

Lemma movable_iff g i :
  movable g i = true <->
  exists p, py_get (used g) i = Some false /\ py_get (pieces g) i = Some p /\
    placeable (grid g) p = true.
Proof.
  unfold movable. split.
  - destruct (py_get (used g) i) as [[|] |]; try discriminate.
    destruct (py_get (pieces g) i) as [p |]; [| discriminate].
    intros H. now exists p.
  - intros (p & -> & -> & H). exact H.
Qed.

(** C5: on a well-formed state [any_move_exists] returns, leaves the
    state as it is, and returns true exactly when one of the three pieces
    has its used flag false and some anchor [(gx, gy)] with
    [0 <= gx <= GRID_COLS - width] and [0 <= gy <= GRID_ROWS - height] at
    which [can_place_piece] returns true; a piece whose flag is true never
    counts. *)
Theorem any_move_exists_iff g :
  wf_game g ->
  exists b, any_move_exists g = Some (b, g) /\
    (b = true <->
     exists i p gx gy,
       0 <= i < 3 /\ py_get (used g) i = Some false /\ py_get (pieces g) i = Some p /\
       0 <= gx <= GRID_COLS - width p /\ 0 <= gy <= GRID_ROWS - height p /\
       can_place_piece p gx gy g = Some (true, g)).
Proof.
  intros Hg. exists (existsb (movable g) (range 3)).
  split; [now apply any_move_exists_ok |].
  rewrite existsb_range_true. split.
  - intros (i & Hi & (p & Hu & Hp & (gx & gy & Hgx & Hgy & Hf)%placeable_iff)%movable_iff).
    exists i, p, gx, gy. repeat split; try assumption; try lia.
    destruct (wf_game_piece g i Hg Hi) as (u & p' & c & _ & Hp' & _ & Hwp & _).
    assert (p' = p) by congruence. subst p'.
    rewrite can_place_piece_ok by (try apply Hg; assumption). now rewrite Hf.
  - intros (i & p & gx & gy & Hi & Hu & Hp & Hgx & Hgy & Hrun).
    exists i. split; [exact Hi |]. apply movable_iff. exists p.
    split; [exact Hu |]. split; [exact Hp |]. apply placeable_iff.
    exists gx, gy. split; [exact Hgx |]. split; [exact Hgy |].
    destruct (wf_game_piece g i Hg Hi) as (u & p' & c & _ & Hp' & _ & Hwp & _).
    assert (p' = p) by congruence. subst p'.
    rewrite can_place_piece_ok in Hrun by (try apply Hg; assumption). congruence.
Qed.

Lemma any_move_exists_iff_witness :
  exists b, any_move_exists open_game = Some (b, open_game) /\
    (b = true <->
     exists i p gx gy,
       0 <= i < 3 /\ py_get (used open_game) i = Some false /\
       py_get (pieces open_game) i = Some p /\
       0 <= gx <= GRID_COLS - width p /\ 0 <= gy <= GRID_ROWS - height p /\
       can_place_piece p gx gy open_game = Some (true, open_game)).
Proof.
  apply (any_move_exists_iff open_game). solve_wf.
Defined.

Lemma map_py_get_range {A} (d : A) (l : list A) :
  map (fun i => default d (py_get l i)) (range (len l)) = l.
Proof.
  apply list_eq_same_length with (n := length l); [reflexivity | |].
  - unfold range, len. now rewrite !length_map, length_seq, Nat2Z.id.
  - intros i a b Hi Ha Hb.
    rewrite <- py_get_of_nat in Ha, Hb.
    rewrite py_get_map_range in Ha by (unfold len; lia).
    rewrite Hb in Ha. cbn in Ha. congruence.
Qed.

Lemma len_app {A} (l1 l2 : list A) : len (l1 ++ l2) = len l1 + len l2.
Proof. unfold len. rewrite length_app. lia. Qed.

Lemma nonzeros_app l1 l2 : nonzeros (l1 ++ l2) = nonzeros l1 ++ nonzeros l2.
Proof. apply List.filter_app. Qed.

Lemma grid_only_fields g g' :
  grid_only g g' ->
  score g' = score g /\ highscore g' = highscore g /\ pieces g' = pieces g /\
  piece_colors g' = piece_colors g /\ used g' = used g /\ game_over g' = game_over g.
Proof. intros ->. repeat split. Qed.

(** One row of [write_piece]: the inner loop over [px]. *)
Lemma write_row_ok g p gx gy color py k :
  wf_grid (grid g) -> wf_piece p -> box_in_grid p gx gy -> 0 <= py < height p ->
  exists g',
    for_fold (range (width p)) k (fun px placed_blocks =>
      prow <- lift (py_get p py) ;;
      c <- lift (py_get prow px) ;;
      if truthy c then
        grid_set (gx + px) (gy + py) color ;;
        ret (placed_blocks + 1)
      else ret placed_blocks) g
    = Some (k + len (nonzeros (default [] (py_get p py))), g') /\
    grid_only g g' /\ wf_grid (grid g').
Proof.
  intros Hwf Hp (Hx & Hy & Hxw & Hyh) Hpy.
  match goal with |- exists g', for_fold _ _ ?body _ = _ /\ _ =>
    destruct (for_fold_rule
      (fun done k1 g1 =>
         k1 = k + len (nonzeros (map (fun px => piece_cell p px py) done)) /\
         grid_only g g1 /\ wf_grid (grid g1))
      body (range (width p)) [] k g) as (k' & g' & Hrun & -> & Hfr & Hwf')
  end.
  - split; [cbn; unfold len; cbn; lia |]. split; [apply grid_only_refl | exact Hwf].
  - intros done px k1 g1 Hpx%in_range (-> & Hfr & Hwf1).
    destruct (wf_piece_cell p px py Hp Hpx Hpy) as (prow & Hrow & Hc).
    unfold bind, lift. rewrite Hrow, Hc.
    rewrite map_app, nonzeros_app, len_app. cbn [map]. unfold nonzeros.
    cbn [List.filter].
    destruct (truthy (piece_cell p px py)).
    + rewrite grid_set_ok by (try assumption; split; lia).
      eexists. eexists. split; [reflexivity |].
      split; [unfold len; cbn [length]; lia |].
      split; [eapply grid_only_trans; [exact Hfr | apply grid_only_set] |].
      apply grid_put_wf; [assumption | split; lia].
    + eexists. eexists. split; [reflexivity |].
      split; [unfold len; cbn [length]; lia |]. now split.
  - exists g'. split; [| now split]. rewrite Hrun. do 3 f_equal.
    cbn [app]. unfold piece_cell.
    destruct (py_get_is_Some p py) as [prow Hrow]; [exact Hpy |].
    assert (Hl : len prow = width p).
    { destruct Hp as [_ Hrows]. rewrite py_get_nat in Hrow by lia.
      rewrite Forall_lookup in Hrows. exact (Hrows _ _ Hrow). }
    rewrite Hrow. cbn [default]. rewrite <- Hl. now rewrite map_py_get_range.
Qed.

Lemma write_piece_ok g p gx gy color :
  wf_grid (grid g) -> wf_piece p -> box_in_grid p gx gy ->
  exists g', write_piece p gx gy color g = Some (occupied_cells p, g') /\
    grid_only g g' /\ wf_grid (grid g').
Proof.
  intros Hwf Hp Hbox. unfold write_piece.
  match goal with |- exists g', for_fold _ _ ?body _ = _ /\ _ =>
    destruct (for_fold_rule
      (fun done k1 g1 =>
         k1 = len (nonzeros (concat (map (fun py => default [] (py_get p py)) done))) /\
         grid_only g g1 /\ wf_grid (grid g1))
      body (range (len p)) [] 0 g) as (k' & g' & Hrun & -> & Hfr & Hwf')
  end.
  - split; [reflexivity |]. split; [apply grid_only_refl | exact Hwf].
  - intros done py k1 g1 Hpy%in_range (-> & Hfr & Hwf1).
    destruct (wf_piece_row0 p Hp) as (row0 & Hr0 & Hw).
    unfold bind at 1. unfold lift at 1. rewrite Hr0, Hw.
    destruct (write_row_ok g1 p gx gy color py
                (len (nonzeros (concat (map (fun py => default [] (py_get p py)) done))))
                Hwf1 Hp Hbox Hpy) as (g2 & Hrow & Hfr2 & Hwf2).
    eexists. exists g2. split; [exact Hrow |].
    split; [| split; [eapply grid_only_trans; eassumption | exact Hwf2]].
    rewrite map_app, concat_app, nonzeros_app, len_app. cbn [map concat].
    now rewrite app_nil_r.
  - exists g'. split; [| now split]. rewrite Hrun. do 3 f_equal.
    cbn [app]. unfold occupied_cells. now rewrite map_py_get_range.
Qed.

Lemma index_guard_false i : 0 <= i <= 2 -> (i <? 0) || (i >? 2) = false.
Proof.
  intros Hi. rewrite Z.gtb_ltb. apply orb_false_iff.
  split; apply Z.ltb_ge; lia.
Qed.

Lemma index_guard_true i : i < 0 \/ i > 2 -> (i <? 0) || (i >? 2) = true.
Proof.
  intros Hi. rewrite Z.gtb_ltb. apply orb_true_iff.
  destruct Hi; [left | right]; apply Z.ltb_lt; lia.
Qed.

(** [place_piece] refuses: bad index, piece used, or piece that does not
    fit. *)
Lemma place_piece_refuses np nc g i gx gy :
  wf_game g ->
  (i < 0 \/ i > 2 \/ py_get (used g) i = Some true \/
   exists p, py_get (pieces g) i = Some p /\ fits (grid g) p gx gy = false) ->
  place_piece np nc i gx gy g = Some (false, g).
Proof.
  intros Hg Hcase. unfold place_piece.
  destruct (Z.ltb_spec i 0) as [Hneg | Hnn]; [reflexivity |].
  destruct (Z.gtb_spec i 2) as [Hbig | Hle]; [reflexivity |].
  cbn [orb].
  destruct (wf_game_piece g i Hg) as (u & p & c & Hu & Hp & _ & Hwp & _); [lia |].
  unfold bind at 1. unfold used_get, bind, gets, lift. rewrite Hu.
  destruct u; [reflexivity |].
  unfold pieces_get, bind, gets, lift. rewrite Hp.
  rewrite can_place_piece_ok by (try apply Hg; assumption).
  destruct Hcase as [Hc | [Hc | [Hc | (p' & Hp' & Hf)]]]; try lia; try congruence.
  assert (p' = p) by congruence. subst p'. now rewrite Hf.
Qed.

Lemma place_piece_accepts np nc g i gx gy p c :
  wf_game g -> 0 <= i <= 2 ->
  py_get (used g) i = Some false -> py_get (pieces g) i = Some p ->
  py_get (piece_colors g) i = Some c -> fits (grid g) p gx gy = true ->
  exists gw clears gc g',
    write_piece p gx gy (c + 1) g = Some (occupied_cells p, gw) /\
    clear_full_lines (placed_state g gw i p) = Some (clears, gc) /\
    0 <= clears /\
    place_piece np nc i gx gy g = Some (true, g') /\
    score g' = score g + occupied_cells p * SCORE_PER_BLOCK
               + (if clears >? 0 then ROWCOL_CLEAR_BONUS * clears else 0).
Proof.
  intros Hg Hi Hu Hp Hc Hfit.
  destruct (wf_game_piece g i Hg) as (u' & p' & c' & Hu' & Hp' & Hc' & Hwp & Hcol); [lia |].
  assert (p' = p) by congruence. assert (c' = c) by congruence. subst p' c'. clear Hu' Hp' Hc'.
  pose proof (proj1 (fits_iff _ _ _ _) Hfit) as [Hbox _].
  destruct (write_piece_ok g p gx gy (c + 1) (proj1 Hg) Hwp Hbox) as (gw & Hw & Hfr & Hwfw).
  destruct (grid_only_fields _ _ Hfr) as (Hs & Hh & Hps & Hpc & Hus & Hgo).
  assert (Hwfp : wf_grid (grid (placed_state g gw i p))) by exact Hwfw.
  destruct (clear_full_lines_ok _ Hwfp) as (g1 & g2 & gc & clears & Hclr & Htr).
  pose proof (trace_count_nonneg _ _ _ _ _ Htr) as Hnn.
  pose proof (trace_grid_only _ _ _ _ _ Htr) as Hfrc.
  destruct (grid_only_fields _ _ Hfrc) as (Hsc & _).
  destruct (wf_piece_row0 p Hwp) as (row0 & Hr0 & _).
  destruct (py_get_is_Some PARTICLE_COLORS c Hcol) as [rgb Hrgb].
  assert (Hset : py_set (used gw) i true = Some (<[Z.to_nat i := true]> (used g))).
  { rewrite Hus. apply py_set_nat. destruct Hg as (_ & Hlu & _). lia. }
  exists gw, clears, gc.
  unfold place_piece. rewrite index_guard_false by exact Hi.
  unfold used_get, pieces_get, piece_colors_get, used_set, score_add, bind, gets, lift, modify.
  rewrite Hu, Hp. rewrite can_place_piece_ok by (try apply Hg; assumption).
  rewrite Hfit. cbn [negb]. rewrite Hc, Hw, Hset, Hr0.
  cbn [piece_colors set_used]. rewrite Hpc, Hc, Hrgb.
  cbn [score set_used]. rewrite Hs. fold (placed_state g gw i p). rewrite Hclr.
  assert (Hsc' : score gc = score g + occupied_cells p * SCORE_PER_BLOCK) by exact Hsc.
  unfold spawn_new_triplet, modify, ret.
  destruct (clears >? 0);
    match goal with |- context [forallb ?f (used ?s)] => destruct (forallb f (used s)) end;
    cbn [score set_score set_highscore highscore];
    match goal with |- context [?a >? ?b] => destruct (a >? b) end;
    eexists; (split; [reflexivity |]); (split; [reflexivity |]);
    (split; [exact Hnn |]); (split; [reflexivity |]);
    cbn [score set_score set_highscore]; rewrite Hsc'; lia.
Qed.

(** C7: on a well-formed state, [place_piece] called with an index
    outside 0..2, or the index of a used piece, or an anchor at which
    [can_place_piece] returns false for that piece, returns [False] and
    the state it returns is the state it was given (grid, score, pieces,
    flags and all). *)
Theorem place_piece_reports_failure np nc g i gx gy :
  wf_game g ->
  (i < 0 \/ i > 2 \/ py_get (used g) i = Some true \/
   exists p, py_get (pieces g) i = Some p /\
             can_place_piece p gx gy g = Some (false, g)) ->
  place_piece np nc i gx gy g = Some (false, g).
Proof.
  intros Hg Hcase. apply place_piece_refuses; [exact Hg |].
  destruct Hcase as [H | [H | [H | (p & Hp & Hrun)]]]; auto.
  destruct (Z_lt_dec i 0); [now left |].
  destruct (Z_gt_dec i 2); [now right; left |].
  do 3 right. exists p. split; [exact Hp |].
  destruct (wf_game_piece g i Hg) as (_ & p' & _ & _ & Hp' & _ & Hwp & _); [lia |].
  assert (p' = p) by congruence. subst p'.
  rewrite can_place_piece_ok in Hrun by (try apply Hg; assumption). congruence.
Qed.

Lemma place_piece_reports_failure_witness :
  place_piece [] [] 1 0 0 open_game = Some (false, open_game).
Proof.
  apply (place_piece_reports_failure [] [] open_game 1 0 0).
  - solve_wf.
  - do 3 right. exists [[1;1];[1;1]]. split; reflexivity.
Defined.

(** C8: on a well-formed state, [place_piece] called with the index of an
    unused piece and an anchor at which [can_place_piece] returns true
    writes the piece, returns [True], and leaves the score greater by the
    number of occupied cells of the piece times [SCORE_PER_BLOCK], plus
    [ROWCOL_CLEAR_BONUS] times the value [clear_full_lines] returned when
    that value is positive.  For a piece of four cells the score stands at
    the old score plus 40 when [clear_full_lines] is called. *)
Theorem place_piece_score np nc g i gx gy p :
  wf_game g -> 0 <= i <= 2 ->
  py_get (used g) i = Some false -> py_get (pieces g) i = Some p ->
  can_place_piece p gx gy g = Some (true, g) ->
  exists c gw clears gc g',
    py_get (piece_colors g) i = Some c /\
    write_piece p gx gy (c + 1) g = Some (occupied_cells p, gw) /\
    clear_full_lines (placed_state g gw i p) = Some (clears, gc) /\
    place_piece np nc i gx gy g = Some (true, g') /\
    score g' = score g + occupied_cells p * SCORE_PER_BLOCK
               + (if clears >? 0 then ROWCOL_CLEAR_BONUS * clears else 0) /\
    (occupied_cells p = 4 ->
     score (placed_state g gw i p) = score g + 40 /\
     score g' = score g + 40 + (if clears >? 0 then ROWCOL_CLEAR_BONUS * clears else 0)).
Proof.
  intros Hg Hi Hu Hp Hrun.
  destruct (wf_game_piece g i Hg) as (_ & p' & c & _ & Hp' & Hc & Hwp & _); [lia |].
  assert (p' = p) by congruence. subst p'.
  rewrite can_place_piece_ok in Hrun by (try apply Hg; assumption).
  assert (Hfit : fits (grid g) p gx gy = true) by congruence.
  destruct (place_piece_accepts np nc g i gx gy p c Hg Hi Hu Hp Hc Hfit)
    as (gw & clears & gc & g' & Hw & Hclr & _ & Hpl & Hscore).
  exists c, gw, clears, gc, g'.
  do 5 (split; [assumption |]). intros Hfour. split.
  - cbn [placed_state score set_score]. rewrite Hfour. reflexivity.
  - rewrite Hscore, Hfour. reflexivity.
Qed.

Lemma place_piece_score_witness :
  exists c gw clears gc g',
    py_get (piece_colors open_game) 1 = Some c /\
    write_piece [[1;1];[1;1]] 1 1 (c + 1) open_game
      = Some (occupied_cells [[1;1];[1;1]], gw) /\
    clear_full_lines (placed_state open_game gw 1 [[1;1];[1;1]]) = Some (clears, gc) /\
    place_piece [] [] 1 1 1 open_game = Some (true, g') /\
    score g' = score open_game + occupied_cells [[1;1];[1;1]] * SCORE_PER_BLOCK
               + (if clears >? 0 then ROWCOL_CLEAR_BONUS * clears else 0) /\
    (occupied_cells [[1;1];[1;1]] = 4 ->
     score (placed_state open_game gw 1 [[1;1];[1;1]]) = score open_game + 40 /\
     score g' = score open_game + 40
                + (if clears >? 0 then ROWCOL_CLEAR_BONUS * clears else 0)).
Proof.
  apply (place_piece_score [] [] open_game 1 1 1 [[1;1];[1;1]]).
  - solve_wf.
  - lia.
  - reflexivity.
  - reflexivity.
  - vm_compute. reflexivity.
Defined.

(** No move left: [place_piece] refuses whatever it is asked. *)
Lemma place_piece_no_move np nc g :
  wf_game g -> any_move_exists g = Some (false, g) ->
  forall i gx gy, place_piece np nc i gx gy g = Some (false, g).
Proof.
  intros Hg Hrun i gx gy.
  rewrite any_move_exists_ok in Hrun by exact Hg.
  assert (Hnone : existsb (movable g) (range 3) = false) by congruence.
  apply place_piece_refuses; [exact Hg |].
  destruct (Z_lt_dec i 0); [now left |].
  destruct (Z_gt_dec i 2); [now right; left |].
  destruct (wf_game_piece g i Hg) as (u & p & _ & Hu & Hp & _ & _ & _); [lia |].
  destruct u; [now right; right; left |].
  do 3 right. exists p. split; [exact Hp |].
  apply not_true_is_false. intros Hfit.
  assert (Hmov : movable g i = true).
  { apply movable_iff. exists p. repeat split; try assumption.
    now apply fits_placeable with (x := gx) (y := gy). }
  assert (existsb (movable g) (range 3) = true); [| congruence].
  apply existsb_range_true. exists i. split; [lia | exact Hmov].
Qed.

(** C6: once [game_over] is set, the mouse handler of [main], the only
    caller of [place_piece], does nothing at all: whatever the button and
    the position, the state after the click is the state before it.
    [place_piece] itself does not read the flag; but in a state where
    [any_move_exists] returns false, which is when the flag gets set, it
    refuses every index and anchor and leaves the state as it is. *)
Theorem game_over_blocks_placement np nc g :
  game_over g = true ->
  (forall button pos, mouse_button_down_play np nc button pos g = Some (tt, g)) /\
  (wf_game g -> any_move_exists g = Some (false, g) ->
   forall i gx gy, place_piece np nc i gx gy g = Some (false, g)).
Proof.
  intros Hover. split.
  - intros button pos. unfold mouse_button_down_play, bind, gets.
    rewrite Hover. cbn [negb]. now rewrite andb_false_r.
  - apply place_piece_no_move.
Qed.

Lemma game_over_blocks_placement_witness :
  (forall button pos,
     mouse_button_down_play [] [] button pos stuck_game = Some (tt, stuck_game)) /\
  (forall i gx gy, place_piece [] [] i gx gy stuck_game = Some (false, stuck_game)).
Proof.
  destruct (game_over_blocks_placement [] [] stuck_game eq_refl) as [Hclick Hplace].
  split; [exact Hclick |].
  apply Hplace; [solve_wf | vm_compute; reflexivity].
Defined.

(** * Further properties of the round engine *)

(** ** More on [clear_full_lines] and the collapse *)

Lemma column_cell_ext gr gr' x :
  column gr' x = column gr x -> forall y, cell gr' x y = cell gr x y.
Proof. intros H y. unfold cell. now rewrite H. Qed.

(** Zeroing some cells of a column can only drop entries from the list of
    its nonzero cells. *)
Lemma nonzeros_map_sublist (f f' : Z -> Z) l :
  (forall y, In y l -> f' y = f y \/ f' y = 0) ->
  sublist (nonzeros (map f' l)) (nonzeros (map f l)).
Proof.
  induction l as [| a l IH]; intros H; [constructor |].
  specialize (IH (fun y Hy => H y (or_intror Hy))).
  cbn [map]. unfold nonzeros in *. cbn [List.filter].
  destruct (H a (or_introl eq_refl)) as [-> | ->].
  - destruct (truthy (f a)); [now apply sublist_skip | exact IH].
  - change (truthy 0) with false. cbv iota.
    destruct (truthy (f a)); [now apply sublist_cons | exact IH].
Qed.

Lemma zeroed_column_sublist gr gr' x (z : Z -> bool) :
  wf_grid gr -> wf_grid gr' -> 0 <= x < GRID_COLS ->
  (forall y, 0 <= y < GRID_ROWS -> cell gr' x y = if z y then 0 else cell gr x y) ->
  sublist (nonzeros (column gr' x)) (nonzeros (column gr x)).
Proof.
  intros Hwf Hwf' Hx Hc. rewrite !column_as_map by assumption.
  apply nonzeros_map_sublist. intros y Hy%in_range.
  rewrite Hc by assumption. destruct (z y); auto.
Qed.

Lemma trace_sublist g g1 g2 g3 n x :
  wf_grid (grid g) -> clear_trace g g1 g2 g3 n -> 0 <= x < GRID_COLS ->
  sublist (nonzeros (column (grid g3) x)) (nonzeros (column (grid g) x)).
Proof.
  intros Hwf ((_ & Hwf1 & H1) & (_ & Hwf2 & H2) & (_ & Hwf3 & H3) & _) Hx.
  assert (S1 : sublist (nonzeros (column (grid g1) x)) (nonzeros (column (grid g) x))).
  { apply zeroed_column_sublist with (z := row_is_full (grid g)); try assumption.
    intros y Hy. apply H1. now split. }
  assert (S2 : sublist (nonzeros (column (grid g2) x)) (nonzeros (column (grid g1) x))).
  { apply zeroed_column_sublist with (z := fun _ => col_is_full (grid g1) x); try assumption.
    intros y Hy. apply H2. now split. }
  assert (S3 : nonzeros (column (grid g3) x) = nonzeros (column (grid g2) x)).
  { destruct (n >? 0); [| now subst g3].
    rewrite H3 by assumption. apply nonzeros_collapsed. }
  rewrite S3. etransitivity; eassumption.
Qed.

(** [clear_full_lines] runs on every 10 x 10 grid, changes nothing but the
    grid, keeps the grid 10 x 10, returns a count that is not negative,
    and in every column the nonzero cells it leaves are a sublist of the
    nonzero cells it found: no cell value is created, duplicated or
    reordered. *)
Theorem clear_full_lines_only_removes g :
  wf_grid (grid g) ->
  exists n g', clear_full_lines g = Some (n, g') /\
    0 <= n /\ grid_only g g' /\ wf_grid (grid g') /\
    forall x, 0 <= x < GRID_COLS ->
      sublist (nonzeros (column (grid g') x)) (nonzeros (column (grid g) x)).
Proof.
  intros Hwf.
  destruct (clear_full_lines_ok g Hwf) as (g1 & g2 & g3 & n & Hrun & Htr).
  exists n, g3. split; [exact Hrun |].
  split; [exact (trace_count_nonneg _ _ _ _ _ Htr) |].
  split; [exact (trace_grid_only _ _ _ _ _ Htr) |].
  split; [exact (trace_wf _ _ _ _ _ Htr) |].
  intros x Hx. exact (trace_sublist _ _ _ _ _ x Hwf Htr Hx).
Qed.

Lemma clear_full_lines_only_removes_witness :
  exists n g', clear_full_lines (board stacked_grid) = Some (n, g') /\
    0 <= n /\ grid_only (board stacked_grid) g' /\ wf_grid (grid g') /\
    forall x, 0 <= x < GRID_COLS ->
      sublist (nonzeros (column (grid g') x))
              (nonzeros (column (grid (board stacked_grid)) x)).
Proof.
  apply (clear_full_lines_only_removes (board stacked_grid)). solve_wf.
Defined.

Lemma no_full_rows gr :
  (forall y, 0 <= y < GRID_ROWS -> ~ row_full gr y) <-> full_rows gr = [].
Proof.
  rewrite full_rows_nil. split; intros H y Hy.
  - apply not_true_is_false. intros Hf%row_is_full_iff. exact (H y Hy Hf).
  - intros Hf%row_is_full_iff. rewrite (H y Hy) in Hf. discriminate.
Qed.

Lemma no_full_cols gr :
  (forall x, 0 <= x < GRID_COLS -> ~ col_full gr x) <-> full_cols gr = [].
Proof.
  rewrite full_cols_nil. split; intros H x Hx.
  - apply not_true_is_false. intros Hf%col_is_full_iff. exact (H x Hx Hf).
  - intros Hf%col_is_full_iff. rewrite (H x Hx) in Hf. discriminate.
Qed.

(** [clear_full_lines] returns 0 exactly when the board has no full row
    and no full column. *)
Theorem clear_full_lines_zero_iff g :
  wf_grid (grid g) ->
  exists n g', clear_full_lines g = Some (n, g') /\
    (n = 0 <->
     (forall y, 0 <= y < GRID_ROWS -> ~ row_full (grid g) y) /\
     (forall x, 0 <= x < GRID_COLS -> ~ col_full (grid g) x)).
Proof.
  intros Hwf.
  destruct (clear_full_lines_ok g Hwf) as (g1 & g2 & g3 & n & Hrun & Htr).
  exists n, g3. split; [exact Hrun |].
  rewrite no_full_rows, no_full_cols. split.
  - intros Hn. destruct (trace_zero g g1 g2 g3 n Hwf Htr Hn) as (_ & Hr & Hc).
    now split.
  - intros [Hr Hc].
    pose proof (trace_rows_nil _ _ _ _ _ Hwf Htr Hr) as E1.
    destruct Htr as (_ & _ & _ & ->). rewrite E1, Hr, Hc. reflexivity.
Qed.

Lemma clear_full_lines_zero_iff_witness :
  exists n g', clear_full_lines (board cross_grid) = Some (n, g') /\
    (n = 0 <->
     (forall y, 0 <= y < GRID_ROWS -> ~ row_full (grid (board cross_grid)) y) /\
     (forall x, 0 <= x < GRID_COLS -> ~ col_full (grid (board cross_grid)) x)).
Proof.
  apply (clear_full_lines_zero_iff (board cross_grid)). solve_wf.
Defined.

(** When no column of the board is full, [clear_full_lines] returns the
    number of full rows; when no row is full, the number of full
    columns. *)
Theorem clear_full_lines_counts_one_kind g :
  wf_grid (grid g) ->
  exists n g', clear_full_lines g = Some (n, g') /\
    ((forall x, 0 <= x < GRID_COLS -> ~ col_full (grid g) x) ->
     n = len (full_rows (grid g))) /\
    ((forall y, 0 <= y < GRID_ROWS -> ~ row_full (grid g) y) ->
     n = len (full_cols (grid g))).
Proof.
  intros Hwf.
  destruct (clear_full_lines_ok g Hwf) as (g1 & g2 & g3 & n & Hrun & Htr).
  exists n, g3. split; [exact Hrun |]. split.
  - intros Hc%no_full_cols.
    destruct Htr as ((_ & Hwf1 & H1) & _ & _ & ->).
    assert (Hc1 : full_cols (grid g1) = []).
    { apply full_cols_nil. intros x Hx.
      destruct (col_is_full_false _ _ (proj1 (full_cols_nil _) Hc x Hx)) as (y & Hy & Hz).
      apply col_is_full_zero with (y := y); [assumption |].
      rewrite H1 by (now split). rewrite Hz. now destruct (row_is_full (grid g) y). }
    rewrite Hc1. change (len []) with 0. lia.
  - intros Hr%no_full_rows.
    pose proof (trace_rows_nil _ _ _ _ _ Hwf Htr Hr) as E1.
    destruct Htr as (_ & _ & _ & ->). rewrite E1, Hr. reflexivity.
Qed.

Lemma clear_full_lines_counts_one_kind_witness :
  exists n g', clear_full_lines (board stacked_grid) = Some (n, g') /\
    ((forall x, 0 <= x < GRID_COLS -> ~ col_full (grid (board stacked_grid)) x) ->
     n = len (full_rows (grid (board stacked_grid)))) /\
    ((forall y, 0 <= y < GRID_ROWS -> ~ row_full (grid (board stacked_grid)) y) ->
     n = len (full_cols (grid (board stacked_grid)))).
Proof.
  apply (clear_full_lines_counts_one_kind (board stacked_grid)). solve_wf.
Defined.

Lemma collapsed_collapsed c : collapsed (collapsed c) = collapsed c.
Proof. unfold collapsed at 1. now rewrite nonzeros_collapsed. Qed.

Lemma collapsed_low c y :
  0 <= y < GRID_ROWS - len (nonzeros c) -> py_get (collapsed c) y = Some 0.
Proof.
  intros Hy. rewrite py_get_nat by lia. unfold collapsed.
  rewrite lookup_app_l by (rewrite length_replicate; lia).
  apply lookup_replicate_2. lia.
Qed.

Lemma collapsed_high c y :
  len c = GRID_ROWS -> GRID_ROWS - len (nonzeros c) <= y < GRID_ROWS ->
  exists v, py_get (collapsed c) y = Some v /\ v <> 0.
Proof.
  intros Hc Hy. pose proof (len_nonzeros_le c) as Hle.
  pose proof (len_nonneg (nonzeros c)) as Hnn.
  rewrite py_get_nat by lia. unfold collapsed.
  rewrite lookup_app_r by (rewrite length_replicate; lia).
  rewrite length_replicate.
  destruct (lookup_lt_is_Some_2 (nonzeros c)
              (Z.to_nat y - Z.to_nat (GRID_ROWS - len (nonzeros c)))) as [v Hv].
  { unfold len in *. lia. }
  exists v. split; [exact Hv |].
  apply list_elem_of_lookup_2, list_elem_of_In in Hv.
  unfold nonzeros in Hv. apply filter_In in Hv. destruct Hv as [_ Ht].
  unfold truthy in Ht. intros ->. discriminate Ht.
Qed.

(** After the collapse every column is settled: below a nonzero cell
    (at a larger [y]) there is no empty cell. *)
Theorem gravity_collapse_settles g :
  wf_grid (grid g) ->
  exists g', gravity_collapse g = Some (tt, g') /\
    forall x y y', 0 <= x < GRID_COLS -> 0 <= y <= y' -> y' < GRID_ROWS ->
      cell (grid g') x y <> 0 -> cell (grid g') x y' <> 0.
Proof.
  intros Hwf.
  destruct (gravity_collapse_ok g Hwf) as (g' & Hrun & _ & Hwf' & Hcols).
  exists g'. split; [exact Hrun |].
  intros x y y' Hx Hy Hy' Hnz.
  destruct (wf_column _ x Hwf Hx) as [_ Hl].
  unfold cell in *. rewrite Hcols in * by assumption.
  set (c := column (grid g) x) in *.
  destruct (Z_lt_dec y (GRID_ROWS - len (nonzeros c))) as [Hlow | Hhigh].
  - rewrite collapsed_low in Hnz by lia. now contradiction Hnz.
  - destruct (collapsed_high c y' Hl) as (v & -> & Hv); [lia | exact Hv].
Qed.

Lemma gravity_collapse_settles_witness :
  exists g', gravity_collapse (board stacked_grid) = Some (tt, g') /\
    forall x y y', 0 <= x < GRID_COLS -> 0 <= y <= y' -> y' < GRID_ROWS ->
      cell (grid g') x y <> 0 -> cell (grid g') x y' <> 0.
Proof.
  apply (gravity_collapse_settles (board stacked_grid)). solve_wf.
Defined.

(** Collapsing a collapsed grid changes nothing. *)
Theorem gravity_collapse_idempotent g g' :
  wf_grid (grid g) -> gravity_collapse g = Some (tt, g') ->
  gravity_collapse g' = Some (tt, g').
Proof.
  intros Hwf Hrun.
  destruct (gravity_collapse_ok g Hwf) as (h & Hrun' & _ & Hwf' & Hcols).
  assert (h = g') by congruence. subst h.
  destruct (gravity_collapse_ok g' Hwf') as (g'' & Hrun2 & Hfr2 & Hwf2 & Hcols2).
  rewrite Hrun2. do 2 f_equal.
  apply grid_only_same; try assumption.
  intros x y [Hx Hy]. apply column_cell_ext.
  rewrite Hcols2, Hcols by assumption. apply collapsed_collapsed.
Qed.

Lemma gravity_collapse_idempotent_witness :
  exists g', gravity_collapse (board stacked_grid) = Some (tt, g') /\
    gravity_collapse g' = Some (tt, g').
Proof.
  eexists. split; [vm_compute; reflexivity |].
  apply (gravity_collapse_idempotent (board stacked_grid)).
  - solve_wf.
  - vm_compute. reflexivity.
Defined.

(** ** The cells [place_piece] writes *)

Lemma covers_iff p gx gy x y :
  covers p gx gy x y = true <-> occupied p (x - gx) (y - gy).
Proof.
  unfold covers, covers_row, occupied. rewrite existsb_range_true. split.
  - intros (py & Hpy & H). apply andb_true_iff in H. destruct H as [Ey H].
    apply existsb_range_true in H. destruct H as (px & Hpx & H).
    apply andb_true_iff in H. destruct H as [Ex Ht].
    apply Z.eqb_eq in Ex, Ey.
    replace (x - gx) with px by lia. replace (y - gy) with py by lia.
    repeat split; try lia. unfold truthy in Ht. intros E. rewrite E in Ht. discriminate.
  - intros (Hpx & Hpy & Hc). exists (y - gy). split; [exact Hpy |].
    apply andb_true_iff. split; [apply Z.eqb_eq; lia |].
    apply existsb_range_true. exists (x - gx). split; [exact Hpx |].
    apply andb_true_iff. split; [apply Z.eqb_eq; lia |].
    unfold truthy. now destruct (Z.eqb_spec (piece_cell p (x - gx) (y - gy)) 0).
Qed.

Lemma write_row_cells g p gx gy color py k :
  wf_grid (grid g) -> wf_piece p -> box_in_grid p gx gy -> 0 <= py < height p ->
  exists k' g',
    for_fold (range (width p)) k (fun px placed_blocks =>
      prow <- lift (py_get p py) ;;
      c <- lift (py_get prow px) ;;
      if truthy c then
        grid_set (gx + px) (gy + py) color ;;
        ret (placed_blocks + 1)
      else ret placed_blocks) g
    = Some (k', g') /\
    grid_only g g' /\ wf_grid (grid g') /\
    forall x y, in_grid x y ->
      cell (grid g') x y =
        if (gy + py =? y) && covers_row p gx x py then color else cell (grid g) x y.
Proof.
  intros Hwf Hp (Hx & Hy & Hxw & Hyh) Hpy.
  match goal with |- exists k' g', for_fold _ _ ?body _ = _ /\ _ =>
    destruct (for_fold_rule
      (fun done (k1 : Z) g1 =>
         grid_only g g1 /\ wf_grid (grid g1) /\
         forall x y, in_grid x y ->
           cell (grid g1) x y =
             if (gy + py =? y) &&
                existsb (fun px => (gx + px =? x) && truthy (piece_cell p px py)) done
             then color else cell (grid g) x y)
      body (range (width p)) [] k g) as (k' & g' & Hrun & Hfr & Hwf' & Hcells)
  end.
  - split; [apply grid_only_refl |]. split; [exact Hwf |].
    intros x y _. cbn [existsb]. now rewrite andb_false_r.
  - intros done px k1 g1 Hpx%in_range (Hfr & Hwf1 & Hcells).
    destruct (wf_piece_cell p px py Hp Hpx Hpy) as (prow & Hrow & Hc).
    unfold bind, lift. rewrite Hrow, Hc.
    destruct (truthy (piece_cell p px py)) eqn:Ht.
    + rewrite grid_set_ok by (try assumption; split; lia).
      eexists. eexists. split; [reflexivity |].
      split; [eapply grid_only_trans; [exact Hfr | apply grid_only_set] |].
      split; [apply grid_put_wf; [assumption | split; lia] |].
      intros x y Hxy. cbn [grid set_grid].
      rewrite grid_put_cell by (try assumption; split; lia).
      rewrite Hcells, existsb_snoc, Ht by assumption.
      destruct (gx + px =? x); destruct (gy + py =? y); cbn [andb orb];
        rewrite ?orb_true_r, ?orb_false_r, ?andb_true_r, ?andb_false_r; reflexivity.
    + eexists. eexists. split; [reflexivity |]. split; [exact Hfr |].
      split; [exact Hwf1 |].
      intros x y Hxy. rewrite Hcells, existsb_snoc, Ht by assumption.
      now rewrite andb_false_r, orb_false_r.
  - exists k', g'. split; [exact Hrun |]. split; [exact Hfr |]. split; [exact Hwf' |].
    exact Hcells.
Qed.

Lemma write_piece_cells g p gx gy color :
  wf_grid (grid g) -> wf_piece p -> box_in_grid p gx gy ->
  exists k' g', write_piece p gx gy color g = Some (k', g') /\
    forall x y, in_grid x y ->
      cell (grid g') x y = if covers p gx gy x y then color else cell (grid g) x y.
Proof.
  intros Hwf Hp Hbox. unfold write_piece.
  match goal with |- exists k' g', for_fold _ _ ?body _ = _ /\ _ =>
    destruct (for_fold_rule
      (fun done (k1 : Z) g1 =>
         grid_only g g1 /\ wf_grid (grid g1) /\
         forall x y, in_grid x y ->
           cell (grid g1) x y =
             if existsb (fun py => (gy + py =? y) && covers_row p gx x py) done
             then color else cell (grid g) x y)
      body (range (len p)) [] 0 g) as (k' & g' & Hrun & Hfr & Hwf' & Hcells)
  end.
  - split; [apply grid_only_refl |]. split; [exact Hwf | reflexivity].
  - intros done py k1 g1 Hpy%in_range (Hfr & Hwf1 & Hcells).
    destruct (wf_piece_row0 p Hp) as (row0 & Hr0 & Hw).
    unfold bind at 1. unfold lift at 1. rewrite Hr0, Hw.
    destruct (write_row_cells g1 p gx gy color py k1 Hwf1 Hp Hbox Hpy)
      as (k2 & g2 & Hrow & Hfr2 & Hwf2 & Hcells2).
    exists k2, g2. split; [exact Hrow |].
    split; [eapply grid_only_trans; eassumption |]. split; [exact Hwf2 |].
    intros x y Hxy. rewrite Hcells2, Hcells, existsb_snoc by assumption.
    destruct ((gy + py =? y) && covers_row p gx x py);
      [now rewrite orb_true_r | now rewrite orb_false_r].
  - exists k', g'. split; [exact Hrun |]. exact Hcells.
Qed.

(** The write loop of [place_piece] at an anchor where the bounding box is
    in the grid: it counts the occupied cells of the piece, changes nothing
    but the grid, and afterwards the board cells under the occupied cells
    of the piece hold the colour while every other cell of the board holds
    what it held. *)
Theorem write_piece_stamps g p gx gy color :
  wf_grid (grid g) -> wf_piece p -> box_in_grid p gx gy ->
  exists g', write_piece p gx gy color g = Some (occupied_cells p, g') /\
    grid_only g g' /\ wf_grid (grid g') /\
    forall x y, in_grid x y ->
      (occupied p (x - gx) (y - gy) -> cell (grid g') x y = color) /\
      (~ occupied p (x - gx) (y - gy) -> cell (grid g') x y = cell (grid g) x y).
Proof.
  intros Hwf Hp Hbox.
  destruct (write_piece_ok g p gx gy color Hwf Hp Hbox) as (g' & Hrun & Hfr & Hwf').
  destruct (write_piece_cells g p gx gy color Hwf Hp Hbox) as (k & h & Hrun' & Hcells).
  assert (h = g') by congruence. subst h.
  exists g'. split; [exact Hrun |]. split; [exact Hfr |]. split; [exact Hwf' |].
  intros x y Hxy. rewrite Hcells by assumption. split.
  - intros Hocc%covers_iff. now rewrite Hocc.
  - intros Hnot. destruct (covers p gx gy x y) eqn:Hcov; [| reflexivity].
    apply covers_iff in Hcov. contradiction.
Qed.

Lemma write_piece_stamps_witness :
  exists g', write_piece [[1;1];[1;1]] 1 1 2 open_game
               = Some (occupied_cells [[1;1];[1;1]], g') /\
    grid_only open_game g' /\ wf_grid (grid g') /\
    forall x y, in_grid x y ->
      (occupied [[1;1];[1;1]] (x - 1) (y - 1) -> cell (grid g') x y = 2) /\
      (~ occupied [[1;1];[1;1]] (x - 1) (y - 1) ->
       cell (grid g') x y = cell (grid open_game) x y).
Proof.
  apply (write_piece_stamps open_game [[1;1];[1;1]] 1 1 2); [solve_wf | solve_wf |].
  unfold box_in_grid. repeat split; vm_compute; discriminate.
Defined.

(** ** The state after an accepted [place_piece] *)

Lemma PIECES_wf : Forall wf_piece PIECES.
Proof. unfold PIECES. solve_wf. Qed.

Lemma draws_ok_pieces np nc : draws_ok np nc -> Forall wf_piece np.
Proof.
  intros (_ & Hp & _). rewrite Forall_forall in *. intros p Hin.
  pose proof PIECES_wf as Hwf. rewrite Forall_forall in Hwf.
  apply Hwf. apply list_elem_of_In. apply Hp. exact Hin.
Qed.

Lemma place_piece_run np nc g i gx gy p c :
  wf_game g -> 0 <= i <= 2 ->
  py_get (used g) i = Some false -> py_get (pieces g) i = Some p ->
  py_get (piece_colors g) i = Some c -> fits (grid g) p gx gy = true ->
  exists gw clears gc,
    write_piece p gx gy (c + 1) g = Some (occupied_cells p, gw) /\
    grid_only g gw /\
    clear_full_lines (placed_state g gw i p) = Some (clears, gc) /\
    0 <= clears /\ grid_only (placed_state g gw i p) gc /\ wf_grid (grid gc) /\
    place_piece np nc i gx gy g = Some (true, settle_round np nc clears gc).
Proof.
  intros Hg Hi Hu Hp Hc Hfit.
  destruct (wf_game_piece g i Hg) as (u' & p' & c' & Hu' & Hp' & Hc' & Hwp & Hcol); [lia |].
  assert (p' = p) by congruence. assert (c' = c) by congruence. subst p' c'. clear Hu' Hp' Hc'.
  pose proof (proj1 (fits_iff _ _ _ _) Hfit) as [Hbox _].
  destruct (write_piece_ok g p gx gy (c + 1) (proj1 Hg) Hwp Hbox) as (gw & Hw & Hfr & Hwfw).
  destruct (grid_only_fields _ _ Hfr) as (Hs & Hh & Hps & Hpc & Hus & Hgo).
  assert (Hwfp : wf_grid (grid (placed_state g gw i p))) by exact Hwfw.
  destruct (clear_full_lines_ok _ Hwfp) as (g1 & g2 & gc & clears & Hclr & Htr).
  pose proof (trace_count_nonneg _ _ _ _ _ Htr) as Hnn.
  pose proof (trace_grid_only _ _ _ _ _ Htr) as Hfrc.
  pose proof (trace_wf _ _ _ _ _ Htr) as Hwfc.
  destruct (wf_piece_row0 p Hwp) as (row0 & Hr0 & _).
  destruct (py_get_is_Some PARTICLE_COLORS c Hcol) as [rgb Hrgb].
  assert (Hset : py_set (used gw) i true = Some (<[Z.to_nat i := true]> (used g))).
  { rewrite Hus. apply py_set_nat. destruct Hg as (_ & Hlu & _). lia. }
  exists gw, clears, gc.
  do 6 (split; [assumption |]).
  unfold place_piece. rewrite index_guard_false by exact Hi.
  unfold used_get, pieces_get, piece_colors_get, used_set, score_add, bind, gets, lift, modify.
  rewrite Hu, Hp. rewrite can_place_piece_ok by (try apply Hg; assumption).
  rewrite Hfit. cbn [negb]. rewrite Hc, Hw, Hset, Hr0.
  cbn [piece_colors set_used]. rewrite Hpc, Hc, Hrgb.
  cbn [score set_used]. rewrite Hs. fold (placed_state g gw i p). rewrite Hclr.
  unfold settle_round, spawn_new_triplet, modify, ret.
  destruct (clears >? 0);
    match goal with |- context [forallb ?f (used ?s)] => destruct (forallb f (used s)) end;
    cbn [score set_score set_highscore highscore];
    match goal with |- context [?a >? ?b] => destruct (a >? b) end;
    reflexivity.
Qed.

Lemma settle_round_fields np nc clears gc :
  0 <= clears ->
  let g' := settle_round np nc clears gc in
  grid g' = grid gc /\ game_over g' = game_over gc /\
  score g' = score gc + (if clears >? 0 then ROWCOL_CLEAR_BONUS * clears else 0) /\
  highscore g' = Z.max (highscore gc) (score g') /\
  (if forallb (fun b : bool => b) (used gc)
   then pieces g' = np /\ piece_colors g' = nc /\ used g' = [false; false; false]
   else pieces g' = pieces gc /\ piece_colors g' = piece_colors gc /\ used g' = used gc).
Proof.
  intros Hnn. unfold settle_round.
  destruct (clears >? 0); cbn [used set_score];
    destruct (forallb (fun b : bool => b) (used gc));
    cbn [score set_score highscore];
    match goal with |- context [?a >? ?b] => destruct (Z.gtb_spec a b) end;
    cbn; repeat split; lia.
Qed.

Lemma place_piece_state np nc g i gx gy :
  wf_game g -> draws_ok np nc -> 0 <= i <= 2 -> qualifies g gx gy i ->
  exists g', place_piece np nc i gx gy g = Some (true, g') /\
    wf_game g' /\ game_over g' = game_over g /\
    (if forallb (fun b : bool => b) (<[Z.to_nat i := true]> (used g))
     then pieces g' = np /\ piece_colors g' = nc /\ used g' = [false; false; false]
     else pieces g' = pieces g /\ piece_colors g' = piece_colors g /\
          used g' = <[Z.to_nat i := true]> (used g)).
Proof.
  intros Hg Hd Hi (p & Hu & Hp & Hfit).
  destruct (wf_game_piece g i Hg) as (_ & _ & c & _ & _ & Hc & _ & _); [lia |].
  destruct (place_piece_run np nc g i gx gy p c Hg Hi Hu Hp Hc Hfit)
    as (gw & clears & gc & Hw & Hfr & Hclr & Hnn & Hfrc & Hwfc & Hpl).
  destruct (grid_only_fields _ _ Hfr) as (_ & _ & Hps & Hpc & _ & Hgo).
  destruct (grid_only_fields _ _ Hfrc) as (_ & _ & Hps' & Hpc' & Hus' & Hgo').
  cbn [placed_state pieces piece_colors used game_over set_score set_used] in *.
  pose proof (settle_round_fields np nc clears gc Hnn) as (Egr & Ego & _ & _ & Eu).
  rewrite Hus' in Eu.
  exists (settle_round np nc clears gc). split; [exact Hpl |].
  split; [| split; [congruence |]].
  - destruct Hg as (_ & Hlu & Hlp & Hlc & Hwps & Hwcs).
    destruct Hd as (Hnp & Hnps & Hnc & Hncs).
    unfold wf_game. rewrite Egr. split; [exact Hwfc |].
    destruct (forallb (fun b : bool => b) (<[Z.to_nat i := true]> (used g))).
    + destruct Eu as (-> & -> & ->).
      repeat split; try assumption.
      apply (draws_ok_pieces np nc). now repeat split.
    + destruct Eu as (-> & -> & ->). rewrite Hps', Hps, Hpc', Hpc, len_insert.
      now repeat split.
  - destruct (forallb (fun b : bool => b) (<[Z.to_nat i := true]> (used g)));
      destruct Eu as (E1 & E2 & E3); repeat split; congruence.
Qed.

(** An accepted [place_piece] keeps the state well formed and never
    touches [game_over].  It marks the piece used; when that was the last
    unused piece of the triplet the three pieces and colours are replaced
    by the new draw and all three flags are cleared, and otherwise pieces
    and colours stay and no other flag changes. *)
Theorem place_piece_consumes_piece np nc g i gx gy p :
  wf_game g -> draws_ok np nc -> 0 <= i <= 2 ->
  py_get (used g) i = Some false -> py_get (pieces g) i = Some p ->
  can_place_piece p gx gy g = Some (true, g) ->
  exists g', place_piece np nc i gx gy g = Some (true, g') /\
    wf_game g' /\ game_over g' = game_over g /\
    (if forallb (fun b : bool => b) (<[Z.to_nat i := true]> (used g))
     then pieces g' = np /\ piece_colors g' = nc /\ used g' = [false; false; false]
     else pieces g' = pieces g /\ piece_colors g' = piece_colors g /\
          used g' = <[Z.to_nat i := true]> (used g)).
Proof.
  intros Hg Hd Hi Hu Hp Hrun.
  apply place_piece_state; try assumption. exists p.
  destruct (wf_game_piece g i Hg) as (_ & p' & _ & _ & Hp' & _ & Hwp & _); [lia |].
  assert (p' = p) by congruence. subst p'.
  rewrite can_place_piece_ok in Hrun by (try apply Hg; assumption).
  repeat split; congruence.
Qed.

(** An accepted [place_piece] never lowers the score, and leaves the high
    score at the larger of the old high score and the new score. *)
Theorem place_piece_highscore np nc g i gx gy p :
  wf_game g -> 0 <= i <= 2 ->
  py_get (used g) i = Some false -> py_get (pieces g) i = Some p ->
  can_place_piece p gx gy g = Some (true, g) ->
  exists g', place_piece np nc i gx gy g = Some (true, g') /\
    score g <= score g' /\
    highscore g' = Z.max (highscore g) (score g').
Proof.
  intros Hg Hi Hu Hp Hrun.
  destruct (wf_game_piece g i Hg) as (_ & p' & c & _ & Hp' & Hc & Hwp & _); [lia |].
  assert (p' = p) by congruence. subst p'.
  rewrite can_place_piece_ok in Hrun by (try apply Hg; assumption).
  assert (Hfit : fits (grid g) p gx gy = true) by congruence.
  destruct (place_piece_run np nc g i gx gy p c Hg Hi Hu Hp Hc Hfit)
    as (gw & clears & gc & Hw & Hfr & Hclr & Hnn & Hfrc & Hwfc & Hpl).
  destruct (grid_only_fields _ _ Hfr) as (Hs & Hh & _).
  destruct (grid_only_fields _ _ Hfrc) as (Hs' & Hh' & _).
  cbn [placed_state score highscore set_score set_used] in *.
  pose proof (settle_round_fields np nc clears gc Hnn) as (_ & _ & Es & Eh & _).
  exists (settle_round np nc clears gc). split; [exact Hpl |].
  pose proof (len_nonneg (nonzeros (concat p))) as Hocc. fold (occupied_cells p) in Hocc.
  split.
  - rewrite Es, Hs'. unfold SCORE_PER_BLOCK, ROWCOL_CLEAR_BONUS.
    destruct (clears >? 0); lia.
  - rewrite Eh, Hh', Hh. reflexivity.
Qed.

(** ** The click: which piece is placed *)

Lemma range_3 : range 3 = [0; 1; 2].
Proof. reflexivity. Qed.

Lemma first_fit_Some g gx gy l i :
  first_fit g gx gy l = Some i ->
  exists l1 l2, l = l1 ++ i :: l2 /\ qualifies g gx gy i /\
    forall j, In j l1 -> ~ qualifies g gx gy j.
Proof.
  induction l as [| a l IH]; [discriminate |]. cbn [first_fit].
  assert (Hrec : first_fit g gx gy l = Some i -> ~ qualifies g gx gy a ->
     exists l1 l2, a :: l = l1 ++ i :: l2 /\ qualifies g gx gy i /\
       forall j, In j l1 -> ~ qualifies g gx gy j).
  { intros H Hna. destruct (IH H) as (l1 & l2 & -> & Hq & Hn).
    exists (a :: l1), l2. split; [reflexivity |]. split; [exact Hq |].
    intros j [<- | Hj]; [exact Hna | now apply Hn]. }
  destruct (py_get (used g) a) as [[|] |] eqn:Hu.
  - intros H. apply Hrec; [exact H |]. intros (q & Hu' & _). congruence.
  - destruct (py_get (pieces g) a) as [p |] eqn:Hp.
    + destruct (fits (grid g) p gx gy) eqn:Hf.
      * intros [= <-]. exists [], l. split; [reflexivity |].
        split; [now exists p |]. intros j [].
      * intros H. apply Hrec; [exact H |]. intros (q & _ & Hq & Hfq). congruence.
    + intros H. apply Hrec; [exact H |]. intros (q & _ & Hq & _). congruence.
  - intros H. apply Hrec; [exact H |]. intros (q & Hu' & _). congruence.
Qed.

Lemma first_fit_None g gx gy l :
  first_fit g gx gy l = None -> forall j, In j l -> ~ qualifies g gx gy j.
Proof.
  induction l as [| a l IH]; [intros _ j [] |]. cbn [first_fit].
  intros H j [<- | Hj].
  - intros (q & Hu & Hp & Hf). rewrite Hu, Hp, Hf in H. discriminate.
  - apply IH; [| exact Hj].
    destruct (py_get (used g) a) as [[|] |]; try exact H.
    destruct (py_get (pieces g) a) as [p |]; try exact H.
    destruct (fits (grid g) p gx gy); [discriminate | exact H].
Qed.

Lemma place_first_fit_run np nc g gx gy l :
  wf_game g -> (forall i, In i l -> 0 <= i < 3) ->
  place_first_fit np nc gx gy l g =
    match first_fit g gx gy l with
    | Some i => place_piece np nc i gx gy g
    | None => Some (false, g)
    end.
Proof.
  intros Hg. induction l as [| a l IH]; intros Hl; [reflexivity |].
  destruct (wf_game_piece g a Hg (Hl a (or_introl eq_refl)))
    as (u & p & c & Hu & Hp & _ & Hwp & _).
  cbn [place_first_fit first_fit].
  unfold bind at 1. unfold used_get, bind, gets, lift. rewrite Hu, Hp.
  destruct u; [apply IH; intros i Hi; apply Hl; now right |].
  unfold pieces_get, bind, gets, lift. rewrite Hp.
  rewrite can_place_piece_ok by (try apply Hg; assumption).
  destruct (fits (grid g) p gx gy); [reflexivity |].
  apply IH. intros i Hi. apply Hl. now right.
Qed.

Lemma split_range_3 l1 l2 i :
  [0; 1; 2] = l1 ++ i :: l2 -> 0 <= i <= 2 /\ forall j, 0 <= j < i -> In j l1.
Proof.
  intros H.
  destruct l1 as [| a [| b [| c l1]]]; cbn in H; inversion H; subst.
  - split; [lia |]. intros j Hj. lia.
  - split; [lia |]. intros j Hj. left. lia.
  - split; [lia |].
    intros j Hj. destruct (Z.eq_dec j 0); [left; lia | right; left; lia].
  - destruct l1; discriminate.
Qed.

(** The piece a click places: the scan of lines 471-475 hands to
    [place_piece] the unused piece of lowest index that fits at the
    clicked cell, and that call is accepted; when no unused piece fits
    there it changes nothing. *)
Theorem place_first_fit_lowest np nc g gx gy :
  wf_game g ->
  (exists i g',
     0 <= i <= 2 /\ qualifies g gx gy i /\
     (forall j, 0 <= j < i -> ~ qualifies g gx gy j) /\
     place_piece np nc i gx gy g = Some (true, g') /\
     place_first_fit np nc gx gy (range 3) g = Some (true, g')) \/
  ((forall j, 0 <= j < 3 -> ~ qualifies g gx gy j) /\
   place_first_fit np nc gx gy (range 3) g = Some (false, g)).
Proof.
  intros Hg.
  rewrite (place_first_fit_run np nc g gx gy (range 3) Hg)
    by (intros i Hi%in_range; exact Hi).
  rewrite range_3.
  destruct (first_fit g gx gy [0; 1; 2]) as [i |] eqn:Hff.
  - left. destruct (first_fit_Some _ _ _ _ _ Hff) as (l1 & l2 & Hl & Hq & Hn).
    destruct (split_range_3 _ _ _ Hl) as [Hi Hlow].
    destruct Hq as (q & Hu & Hp & Hf).
    destruct (wf_game_piece g i Hg) as (_ & _ & c & _ & _ & Hc & _ & _); [lia |].
    destruct (place_piece_run np nc g i gx gy q c Hg Hi Hu Hp Hc Hf)
      as (gw & clears & gc & _ & _ & _ & _ & _ & _ & Hpl).
    exists i, (settle_round np nc clears gc).
    split; [exact Hi |]. split; [now exists q |].
    split; [intros j Hj; apply Hn, Hlow, Hj |]. now split.
  - right. split; [| reflexivity].
    intros j Hj. apply (first_fit_None _ _ _ _ Hff). apply in_range in Hj.
    now rewrite range_3 in Hj.
Qed.

Lemma place_first_fit_lowest_witness :
  (exists i g',
     0 <= i <= 2 /\ qualifies open_game 1 1 i /\
     (forall j, 0 <= j < i -> ~ qualifies open_game 1 1 j) /\
     place_piece [] [] i 1 1 open_game = Some (true, g') /\
     place_first_fit [] [] 1 1 (range 3) open_game = Some (true, g')) \/
  ((forall j, 0 <= j < 3 -> ~ qualifies open_game 1 1 j) /\
   place_first_fit [] [] 1 1 (range 3) open_game = Some (false, open_game)).
Proof.
  apply (place_first_fit_lowest [] [] open_game 1 1). solve_wf.
Defined.

(** ** Ghost, reset, update and the round invariant *)

Lemma ghost_scan_run g gx gy l :
  wf_game g -> (forall i, In i l -> 0 <= i < 3) ->
  ghost_scan gx gy l g = Some (first_fit g gx gy l, g).
Proof.
  intros Hg. induction l as [| a l IH]; intros Hl; [reflexivity |].
  destruct (wf_game_piece g a Hg (Hl a (or_introl eq_refl)))
    as (u & p & c & Hu & Hp & Hc & Hwp & Hcol).
  specialize (IH (fun i Hi => Hl i (or_intror Hi))).
  cbn [ghost_scan first_fit].
  unfold bind at 1. unfold used_get, bind, gets, lift. rewrite Hu, Hp.
  destruct u; [exact IH |].
  unfold pieces_get, bind, gets, lift. rewrite Hp.
  destruct (wf_piece_row0 p Hwp) as (row0 & Hr0 & Hw). rewrite Hr0, Hw.
  fold (height p).
  destruct ((gx + width p <=? GRID_COLS) && (gy + height p <=? GRID_ROWS)) eqn:Hbox.
  - rewrite can_place_piece_ok by (try apply Hg; assumption).
    destruct (fits (grid g) p gx gy); [| exact IH].
    unfold piece_colors_get, bind, gets, lift. rewrite Hc.
    destruct (py_get_is_Some PARTICLE_COLORS (c mod len PARTICLE_COLORS)) as [rgb ->];
      [apply Z.mod_pos_bound; reflexivity | reflexivity].
  - replace (fits (grid g) p gx gy) with false; [exact IH |].
    symmetry. apply not_true_is_false. intros Hf.
    apply fits_iff in Hf. destruct Hf as [(_ & _ & Hx & Hy) _].
    apply andb_false_iff in Hbox. destruct Hbox as [H | H]; apply Z.leb_gt in H; lia.
Qed.

(** The ghost under the mouse is the ghost of the piece a click on that
    cell places: the scan of [draw_ghost_piece] stops at index [i] exactly
    when the scan of the click handler calls [place_piece] with [i], and
    draws nothing exactly when the click places nothing; the scan leaves
    the state as it is. *)
Theorem ghost_shows_piece_click_places np nc g gx gy :
  wf_game g ->
  exists o, ghost_scan gx gy (range 3) g = Some (o, g) /\
    place_first_fit np nc gx gy (range 3) g =
      match o with
      | Some i => place_piece np nc i gx gy g
      | None => Some (false, g)
      end.
Proof.
  intros Hg. exists (first_fit g gx gy (range 3)). split.
  - apply ghost_scan_run; [exact Hg | intros i Hi%in_range; exact Hi].
  - apply place_first_fit_run; [exact Hg | intros i Hi%in_range; exact Hi].
Qed.

Lemma ghost_shows_piece_click_places_witness :
  exists o, ghost_scan 1 1 (range 3) open_game = Some (o, open_game) /\
    place_first_fit [] [] 1 1 (range 3) open_game =
      match o with
      | Some i => place_piece [] [] i 1 1 open_game
      | None => Some (false, open_game)
      end.
Proof.
  apply (ghost_shows_piece_click_places [] [] open_game 1 1). solve_wf.
Defined.

(** [screen_to_grid] returns the cell [(x, y)] exactly for the pixels of
    the square of side [CELL] of that cell, and so [None] exactly off the
    board. *)
Theorem screen_to_grid_cell mx my x y :
  screen_to_grid mx my = Some (x, y) <->
  in_grid x y /\
  GRID_X + x * CELL <= mx < GRID_X + (x + 1) * CELL /\
  GRID_Y + y * CELL <= my < GRID_Y + (y + 1) * CELL.
Proof.
  unfold screen_to_grid, in_grid.
  assert (Hc : CELL = 56) by reflexivity.
  assert (Hdx : forall a q, a / CELL = q <-> q * CELL <= a < (q + 1) * CELL).
  { intros a q. rewrite Hc. split.
    - intros <-. Z.div_mod_to_equations. lia.
    - intros H. Z.div_mod_to_equations. lia. }
  split.
  - destruct ((0 <=? (mx - GRID_X) / CELL) && ((mx - GRID_X) / CELL <? GRID_COLS)
              && (0 <=? (my - GRID_Y) / CELL) && ((my - GRID_Y) / CELL <? GRID_ROWS)) eqn:Hb;
      [| discriminate].
    intros [= Hx Hy].
    rewrite !andb_true_iff in Hb. destruct Hb as [[[H1 H2] H3] H4].
    apply Z.leb_le in H1, H3. apply Z.ltb_lt in H2, H4.
    apply Hdx in Hx as Hx', Hy as Hy'. rewrite Hx in *. rewrite Hy in *.
    repeat split; lia.
  - intros ((Hx & Hy) & Hmx & Hmy).
    assert (Ex : (mx - GRID_X) / CELL = x) by (apply Hdx; lia).
    assert (Ey : (my - GRID_Y) / CELL = y) by (apply Hdx; lia).
    rewrite Ex, Ey.
    replace ((0 <=? x) && (x <? GRID_COLS) && (0 <=? y) && (y <? GRID_ROWS)) with true;
      [reflexivity |].
    symmetry. rewrite !andb_true_iff. repeat split;
      try (apply Z.leb_le; lia); apply Z.ltb_lt; lia.
Qed.

(** Up and Down keep the menu selection among the three entries, and each
    undoes the other. *)
Theorem menu_keys_wrap s :
  0 <= menu_up s < 3 /\ 0 <= menu_down s < 3 /\
  (0 <= s < 3 -> menu_down (menu_up s) = s /\ menu_up (menu_down s) = s).
Proof.
  unfold menu_up, menu_down. repeat split; try (apply Z.mod_pos_bound; lia).
  - assert (s = 0 \/ s = 1 \/ s = 2) as [-> | [-> | ->]] by lia; reflexivity.
  - assert (s = 0 \/ s = 1 \/ s = 2) as [-> | [-> | ->]] by lia; reflexivity.
Qed.

Lemma movable_ext g g' i :
  grid g' = grid g -> used g' = used g -> pieces g' = pieces g ->
  movable g' i = movable g i.
Proof. intros Hgr Hu Hp. unfold movable. now rewrite Hgr, Hu, Hp. Qed.

Lemma existsb_ext_in {A} (p q : A -> bool) l :
  (forall a, In a l -> p a = q a) -> existsb p l = existsb q l.
Proof.
  induction l as [| a l IH]; intros H; [reflexivity |]. cbn [existsb].
  rewrite (H a (or_introl eq_refl)), IH; [reflexivity |].
  intros b Hb. apply H. now right.
Qed.

Lemma wf_game_set_game_over g b : wf_game g -> wf_game (set_game_over g b).
Proof. intros H. exact H. Qed.

Lemma wf_game_set_highscore g s : wf_game g -> wf_game (set_highscore g s).
Proof. intros H. exact H. Qed.

(** The part of the click handler after the guards (lines 469-478). *)
Lemma mouse_click_handled np nc g gx gy :
  wf_game g -> draws_ok np nc -> game_over g = false ->
  exists g',
    (place_first_fit np nc gx gy (range 3) ;;
     b <- any_move_exists ;;
     if negb b then modify (fun g => set_game_over g true) else ret tt) g
      = Some (tt, g') /\
    wf_game g' /\
    (game_over g' = true <-> any_move_exists g' = Some (false, g')) /\
    ((forall j, 0 <= j < 3 -> ~ qualifies g gx gy j) ->
     g' = set_game_over g (game_over g')).
Proof.
  intros Hg Hd Hover.
  assert (Hstep : exists placed g1,
            place_first_fit np nc gx gy (range 3) g = Some (placed, g1) /\
            wf_game g1 /\ game_over g1 = false /\
            ((forall j, 0 <= j < 3 -> ~ qualifies g gx gy j) -> g1 = g)).
  { rewrite (place_first_fit_run np nc g gx gy (range 3) Hg)
      by (intros i Hi%in_range; exact Hi).
    destruct (first_fit g gx gy (range 3)) as [i |] eqn:Hff.
    - destruct (first_fit_Some _ _ _ _ _ Hff) as (l1 & l2 & Hl & Hq & _).
      assert (Hi : 0 <= i < 3).
      { apply in_range. rewrite Hl. apply in_or_app. right. now left. }
      destruct (place_piece_state np nc g i gx gy Hg Hd) as (g1 & Hpl & Hwf1 & Hgo & _);
        [lia | exact Hq |].
      exists true, g1. split; [exact Hpl |]. split; [exact Hwf1 |].
      split; [congruence |]. intros Hnone. exfalso. exact (Hnone i Hi Hq).
    - exists false, g. split; [reflexivity |]. split; [exact Hg |].
      split; [exact Hover |]. intros _. reflexivity. }
  destruct Hstep as (placed & g1 & Hpl & Hwf1 & Hgo1 & Hsame).
  unfold bind. rewrite Hpl, (any_move_exists_ok g1 Hwf1).
  destruct (existsb (movable g1) (range 3)) eqn:Hmv; cbn [negb].
  - exists g1. split; [reflexivity |]. split; [exact Hwf1 |]. split.
    + rewrite Hgo1, (any_move_exists_ok g1 Hwf1), Hmv. split; [discriminate |].
      intros [= H].
    + intros Hnone. rewrite (Hsame Hnone). now destruct g.
  - exists (set_game_over g1 true). split; [reflexivity |].
    split; [exact Hwf1 |]. split.
    + cbn [game_over set_game_over].
      rewrite (any_move_exists_ok (set_game_over g1 true) Hwf1).
      rewrite (existsb_ext_in (movable (set_game_over g1 true)) (movable g1))
        by (intros; now apply movable_ext).
      now rewrite Hmv.
    + intros Hnone. now rewrite (Hsame Hnone).
Qed.

(** A left click on a board cell while the round is on: the handler
    returns a well-formed state whose [game_over] flag is set exactly when
    [any_move_exists] is false in that state; and when no unused piece
    fits at the cell, nothing but that flag can have changed. *)
Theorem mouse_click_sets_game_over np nc g pos gx gy :
  wf_game g -> draws_ok np nc -> game_over g = false ->
  screen_to_grid (fst pos) (snd pos) = Some (gx, gy) ->
  exists g', mouse_button_down_play np nc 1 pos g = Some (tt, g') /\
    wf_game g' /\
    (game_over g' = true <-> any_move_exists g' = Some (false, g')) /\
    ((forall j, 0 <= j < 3 -> ~ qualifies g gx gy j) ->
     g' = set_game_over g (game_over g')).
Proof.
  intros Hg Hd Hover Hcell.
  destruct (mouse_click_handled np nc g gx gy Hg Hd Hover) as (g' & Hrun & Hrest).
  exists g'. split; [| exact Hrest].
  unfold mouse_button_down_play. unfold bind at 1. unfold gets.
  rewrite Hover, Hcell. exact Hrun.
Qed.

Lemma update_play_run g :
  wf_game g ->
  exists g', update_play g = Some (tt, g') /\ wf_game g' /\
    grid g' = grid g /\ score g' = score g /\ pieces g' = pieces g /\
    piece_colors g' = piece_colors g /\ used g' = used g /\
    highscore g' = Z.max (highscore g) (score g) /\
    game_over g' = game_over g || negb (existsb (movable g) (range 3)).
Proof.
  intros Hg. unfold update_play, bind, gets, modify, ret.
  destruct (game_over g) eqn:Hover; cbn [negb orb].
  - destruct (Z.gtb_spec (score g) (highscore g)); eexists; (split; [reflexivity |]);
      cbn; rewrite ?Hover; repeat split; try apply Hg; lia.
  - rewrite (any_move_exists_ok g Hg).
    destruct (existsb (movable g) (range 3)); cbn [negb];
      cbn [score highscore set_game_over];
      destruct (Z.gtb_spec (score g) (highscore g)); eexists; (split; [reflexivity |]);
      cbn; rewrite ?Hover; repeat split; try apply Hg; lia.
Qed.

(** The update step of a frame: it touches neither grid, score, pieces
    nor flags of use, raises the high score to the score when the score is
    larger, and leaves [game_over] set exactly when it was set before or
    [any_move_exists] is false. *)
Theorem update_play_effect g :
  wf_game g ->
  exists g', update_play g = Some (tt, g') /\
    grid g' = grid g /\ score g' = score g /\ pieces g' = pieces g /\
    piece_colors g' = piece_colors g /\ used g' = used g /\
    highscore g' = Z.max (highscore g) (score g) /\
    (game_over g' = true <->
     game_over g = true \/ any_move_exists g = Some (false, g)).
Proof.
  intros Hg.
  destruct (update_play_run g Hg) as (g' & Hrun & _ & Hgr & Hs & Hp & Hc & Hu & Hh & Hgo).
  exists g'. do 7 (split; [assumption |]).
  rewrite Hgo, (any_move_exists_ok g Hg), orb_true_iff, negb_true_iff.
  split; (intros [H | H]; [now left | right]); congruence.
Qed.

Lemma PIECES_fit_empty :
  Forall (fun p => fits (grid (new_game 0 [] [])) p 0 0 = true) PIECES.
Proof. unfold PIECES. repeat (constructor; [vm_compute; reflexivity |]). constructor. Qed.

Lemma new_game_cell hs np nc x y :
  in_grid x y -> cell (grid (new_game hs np nc)) x y = 0.
Proof.
  intros [Hx Hy]. unfold cell, column, new_game. cbn [grid].
  rewrite py_get_map_range by assumption. cbn [default].
  rewrite py_get_nat by lia. unfold id. rewrite lookup_replicate_2 by lia. reflexivity.
Qed.

Lemma new_game_wf hs np nc : draws_ok np nc -> wf_game (new_game hs np nc).
Proof.
  intros Hd. pose proof (draws_ok_pieces np nc Hd) as Hwp.
  destruct Hd as (Hnp & _ & Hnc & Hcs).
  unfold wf_game, new_game. cbn [grid used pieces piece_colors].
  split; [| now repeat split].
  split; [reflexivity |]. repeat constructor.
Qed.

Lemma new_game_movable hs np nc :
  draws_ok np nc -> any_move_exists (new_game hs np nc) = Some (true, new_game hs np nc).
Proof.
  intros Hd. rewrite (any_move_exists_ok _ (new_game_wf hs np nc Hd)).
  do 2 f_equal. apply existsb_range_true. exists 0. split; [lia |].
  destruct Hd as (Hnp & Hps & _).
  destruct np as [| p0 np]; [discriminate Hnp |].
  apply movable_iff. exists p0. split; [reflexivity |]. split; [reflexivity |].
  apply fits_placeable with (x := 0) (y := 0).
  apply Forall_cons in Hps. destruct Hps as [Hin _].
  pose proof PIECES_fit_empty as Hfit. rewrite Forall_forall in Hfit.
  apply (Hfit p0). apply list_elem_of_In. exact Hin.
Qed.

(** A new game and a reset give a playable round: a well-formed state on
    an empty board with score 0, the flag clear, the high score as loaded
    (new game) or as it was (reset), and [any_move_exists] answering true
    whatever three catalogue pieces were drawn. *)
Theorem reset_starts_playable np nc hs g :
  draws_ok np nc ->
  reset np nc g = Some (tt, new_game (highscore g) np nc) /\
  let g' := new_game hs np nc in
  wf_game g' /\ (forall x y, in_grid x y -> cell (grid g') x y = 0) /\
  score g' = 0 /\ highscore g' = hs /\ game_over g' = false /\
  any_move_exists g' = Some (true, g').
Proof.
  intros Hd. split; [reflexivity |]. cbv zeta.
  split; [now apply new_game_wf |].
  split; [intros x y; apply new_game_cell |].
  do 3 (split; [reflexivity |]). now apply new_game_movable.
Qed.

Lemma sample_draws_ok : draws_ok sample_pieces sample_colors.
Proof.
  unfold draws_ok, sample_pieces, sample_colors.
  split; [reflexivity |]. split; [| split; [reflexivity | solve_wf]].
  repeat constructor; unfold PIECES; cbn; tauto.
Qed.

Lemma reset_starts_playable_witness :
  reset sample_pieces sample_colors stuck_game
    = Some (tt, new_game (highscore stuck_game) sample_pieces sample_colors) /\
  let g' := new_game 7 sample_pieces sample_colors in
  wf_game g' /\ (forall x y, in_grid x y -> cell (grid g') x y = 0) /\
  score g' = 0 /\ highscore g' = 7 /\ game_over g' = false /\
  any_move_exists g' = Some (true, g').
Proof.
  apply (reset_starts_playable sample_pieces sample_colors 7 stuck_game).
  exact sample_draws_ok.
Defined.

(** The round invariant (a well-formed state whose [game_over] flag is
    set only if [any_move_exists] is false) is established by [reset] and
    kept by every mouse click and every update step; and in a state that
    has it with the flag set, [place_piece] refuses every request. *)
Theorem round_inv_kept np nc g :
  round_inv g -> draws_ok np nc ->
  (forall button pos,
     exists g', mouse_button_down_play np nc button pos g = Some (tt, g') /\ round_inv g') /\
  (exists g', update_play g = Some (tt, g') /\ round_inv g') /\
  (exists g', reset np nc g = Some (tt, g') /\ round_inv g') /\
  (game_over g = true ->
   forall i gx gy, place_piece np nc i gx gy g = Some (false, g)).
Proof.
  intros [Hg Hflag] Hd. split; [| split; [| split]].
  - intros button pos. unfold mouse_button_down_play. unfold bind at 1. unfold gets.
    destruct (game_over g) eqn:Hover;
      [exists g; cbn [negb]; rewrite andb_false_r; split; [reflexivity |];
       split; [exact Hg | intros _; now apply Hflag] |].
    destruct (button =? 1);
      [| exists g; split; [reflexivity |]; split; [exact Hg | rewrite Hover; discriminate]].
    cbn [negb andb].
    destruct (screen_to_grid (fst pos) (snd pos)) as [[gx gy] |];
      [| exists g; split; [reflexivity |]; split; [exact Hg | rewrite Hover; discriminate]].
    destruct (mouse_click_handled np nc g gx gy Hg Hd Hover) as (g' & Hrun & Hwf' & Hiff & _).
    exists g'. split; [exact Hrun |]. split; [exact Hwf' | apply Hiff].
  - destruct (update_play_run g Hg)
      as (g' & Hrun & Hwf' & Hgr & _ & Hp & _ & Hu & _ & Hgo).
    exists g'. split; [exact Hrun |]. split; [exact Hwf' |].
    intros Hover'. rewrite (any_move_exists_ok g' Hwf').
    rewrite (existsb_ext_in (movable g') (movable g))
      by (intros; now apply movable_ext).
    rewrite Hover' in Hgo. symmetry in Hgo. apply orb_true_iff in Hgo.
    assert (Hno : existsb (movable g) (range 3) = false).
    { destruct Hgo as [Hover | Hno]; [| now apply negb_true_iff].
      specialize (Hflag Hover). rewrite (any_move_exists_ok g Hg) in Hflag.
      congruence. }
    now rewrite Hno.
  - exists (new_game (highscore g) np nc). split; [reflexivity |].
    split; [now apply new_game_wf | discriminate].
  - intros Hover. apply place_piece_no_move; [exact Hg | exact (Hflag Hover)].
Qed.

Lemma stuck_game_inv : round_inv stuck_game.
Proof. split; [solve_wf | intros _; vm_compute; reflexivity]. Qed.

Lemma round_inv_kept_witness :
  (forall button pos,
     exists g', mouse_button_down_play sample_pieces sample_colors button pos stuck_game
                  = Some (tt, g') /\ round_inv g') /\
  (exists g', update_play stuck_game = Some (tt, g') /\ round_inv g') /\
  (exists g', reset sample_pieces sample_colors stuck_game = Some (tt, g') /\
              round_inv g') /\
  (game_over stuck_game = true ->
   forall i gx gy,
     place_piece sample_pieces sample_colors i gx gy stuck_game = Some (false, stuck_game)).
Proof.
  apply (round_inv_kept sample_pieces sample_colors stuck_game).
  - exact stuck_game_inv.
  - exact sample_draws_ok.
Defined.

Lemma place_piece_consumes_piece_witness :
  exists g', place_piece sample_pieces sample_colors 1 1 1 open_game = Some (true, g') /\
    wf_game g' /\ game_over g' = game_over open_game /\
    (if forallb (fun b : bool => b) (<[Z.to_nat 1 := true]> (used open_game))
     then pieces g' = sample_pieces /\ piece_colors g' = sample_colors /\
          used g' = [false; false; false]
     else pieces g' = pieces open_game /\ piece_colors g' = piece_colors open_game /\
          used g' = <[Z.to_nat 1 := true]> (used open_game)).
Proof.
  apply (place_piece_consumes_piece sample_pieces sample_colors open_game 1 1 1
           [[1;1];[1;1]]).
  - solve_wf.
  - exact sample_draws_ok.
  - lia.
  - reflexivity.
  - reflexivity.
  - vm_compute. reflexivity.
Defined.

Lemma place_piece_highscore_witness :
  exists g', place_piece sample_pieces sample_colors 1 1 1 open_game = Some (true, g') /\
    score open_game <= score g' /\
    highscore g' = Z.max (highscore open_game) (score g').
Proof.
  apply (place_piece_highscore sample_pieces sample_colors open_game 1 1 1 [[1;1];[1;1]]).
  - solve_wf.
  - lia.
  - reflexivity.
  - reflexivity.
  - vm_compute. reflexivity.
Defined.

Lemma mouse_click_sets_game_over_witness :
  exists g', mouse_button_down_play sample_pieces sample_colors 1 (161, 221) open_game
               = Some (tt, g') /\
    wf_game g' /\
    (game_over g' = true <-> any_move_exists g' = Some (false, g')) /\
    ((forall j, 0 <= j < 3 -> ~ qualifies open_game 1 1 j) ->
     g' = set_game_over open_game (game_over g')).
Proof.
  apply (mouse_click_sets_game_over sample_pieces sample_colors open_game (161, 221) 1 1).
  - solve_wf.
  - exact sample_draws_ok.
  - reflexivity.
  - reflexivity.
Defined.

Lemma update_play_effect_witness :
  exists g', update_play stuck_game = Some (tt, g') /\
    grid g' = grid stuck_game /\ score g' = score stuck_game /\
    pieces g' = pieces stuck_game /\ piece_colors g' = piece_colors stuck_game /\
    used g' = used stuck_game /\
    highscore g' = Z.max (highscore stuck_game) (score stuck_game) /\
    (game_over g' = true <->
     game_over stuck_game = true \/ any_move_exists stuck_game = Some (false, stuck_game)).
Proof.
  apply (update_play_effect stuck_game). solve_wf.
Defined.

Lemma menu_keys_wrap_witness :
  0 <= menu_up 0 < 3 /\ 0 <= menu_down 0 < 3 /\
  (0 <= 0 < 3 -> menu_down (menu_up 0) = 0 /\ menu_up (menu_down 0) = 0).
Proof.
  apply (menu_keys_wrap 0).
Defined.
